(** * server.js: job orchestration and code wrapping of the web obfuscator

    A shallow embedding of [src/server.js]: the preset configurations, the
    textual wrappers (anti-bypass guard, password gate), the normalisation of
    the engine's result, the [start] handler of the progress channel and the
    retention sweep, followed by the properties of the specification.

    Conventions.
    - A well-formed JavaScript string (one without lone surrogates) is
      modelled by the bytes of its UTF-8 encoding (Rocq's [string]); such
      strings are equal exactly when their bytes are, and template literals
      are concatenations.  The texts the server reads from files, builds
      from literals and prints from numbers are well-formed.
    - The password comes from the client and need not be well-formed: it
      is a sequence of UTF-16 code units, and [Buffer.from] gives its bytes
      (module [Utf16]).
    - Time stamps ([Date.now()], [mtimeMs]) are whole milliseconds.
    - A path is the pair of arguments the source gives to [path.join]: every
      file-system call of the source is on [path.join(DIR, name)]. *)

From Stdlib Require Import ZArith QArith Ascii Sorted.
From stdpp Require Import base tactics option list strings gmap fin_maps pretty.


(* ===================================================================== *)
(** ** Text *)
(* ===================================================================== *)

Module Text.

(** The double quote and the line feed, by character code. *)
Definition dq : string := String (ascii_of_nat 34) EmptyString.
Definition nl : string := String (ascii_of_nat 10) EmptyString.

(** [q s] is [s] between double quotes, as a JavaScript string literal is
    written in the source. *)
Definition q (s : string) : string := dq +:+ s +:+ dq.

(** Lines joined by line feeds: a multi-line template literal. *)
Fixpoint lines (ls : list string) : string :=
  match ls with
  | [] => EmptyString
  | [l] => l
  | l :: ls' => l +:+ nl +:+ lines ls'
  end.

(** [starts_with p s]: [s.startsWith(p)]. *)
Fixpoint starts_with (p s : string) : bool :=
  match p, s with
  | EmptyString, _ => true
  | String a p', String b s' => if decide (a = b) then starts_with p' s' else false
  | String _ _, EmptyString => false
  end.

(** [occurs_at n p s]: the text [p] stands in [s] at offset [n]
    ([s.startsWith(p, n)] with [n] within [s]). *)
Fixpoint occurs_at (n : nat) (p s : string) : bool :=
  match n with
  | 0 => starts_with p s
  | S n' => match s with
            | EmptyString => false
            | String _ s' => occurs_at n' p s'
            end
  end.

(** [index_from k p s]: [Some] of the first offset (counted from [k]) at
    which [p] stands in [s] ([s.indexOf(p)]), [None] when there is none. *)
Fixpoint index_from (k : nat) (p s : string) : option nat :=
  if starts_with p s then Some k
  else match s with
       | EmptyString => None
       | String _ s' => index_from (S k) p s'
       end.

Definition indexOf (p s : string) : option nat := index_from 0 p s.

(** [includes p s]: [s.includes(p)]. *)
Definition includes (p s : string) : bool := bool_decide (is_Some (indexOf p s)).

(** ASCII lower-casing of one character and of a text.  It stands for
    [String.prototype.toLowerCase]: the handler compares the result with the
    names nova, nebula, arab and japan only, and no character outside ASCII
    lower-cases to one of their letters. *)
Definition lower_ascii (c : ascii) : ascii :=
  let n := nat_of_ascii c in
  if (65 <=? n)%nat && (n <=? 90)%nat then ascii_of_nat (n + 32) else c.

Fixpoint toLowerCase (s : string) : string :=
  match s with
  | EmptyString => EmptyString
  | String c s' => String (lower_ascii c) (toLowerCase s')
  end.

Lemma append_nil_l (s : string) : EmptyString +:+ s = s.
Proof. reflexivity. Qed.

Lemma append_cons (x : ascii) (a b : string) : String x a +:+ b = String x (a +:+ b).
Proof. reflexivity. Qed.

Lemma append_nil_r (s : string) : s +:+ EmptyString = s.
Proof. induction s as [|x s IH]; [done |]. by rewrite append_cons, IH. Qed.

Lemma append_assoc (a b c : string) : (a +:+ b) +:+ c = a +:+ (b +:+ c).
Proof. induction a as [|x a IH]; [done |]. by rewrite !append_cons, IH. Qed.

Lemma length_append (a b : string) :
  String.length (a +:+ b) = String.length a + String.length b.
Proof. induction a as [|x a IH]; [done |]. rewrite append_cons. simpl. by rewrite IH. Qed.

Lemma starts_with_app (p s : string) : starts_with p (p +:+ s) = true.
Proof.
  induction p as [|a p IH]; [done |].
  rewrite append_cons. simpl. by rewrite decide_True.
Qed.

Lemma occurs_at_app (a p s : string) :
  occurs_at (String.length a) p (a +:+ p +:+ s) = true.
Proof.
  induction a as [|x a IH]; [exact (starts_with_app p s) |].
  rewrite append_cons. exact IH.
Qed.

Lemma starts_with_inv (p s : string) :
  starts_with p s = true → ∃ r, s = p +:+ r.
Proof.
  revert s. induction p as [|a p IH]; intros s H; simpl in *.
  - by exists s.
  - destruct s as [|b s]; [done |].
    case_decide; [subst | done].
    destruct (IH _ H) as [r ->]. by exists r.
Qed.

Lemma occurs_at_inv (n : nat) (p s : string) :
  occurs_at n p s = true →
  ∃ a r, s = a +:+ p +:+ r ∧ String.length a = n.
Proof.
  revert s. induction n as [|n IH]; intros s H; simpl in *.
  - destruct (starts_with_inv _ _ H) as [r ->]. by exists EmptyString, r.
  - destruct s as [|b s]; [done |].
    destruct (IH _ H) as (a & r & -> & <-). by exists (String b a), r.
Qed.

Lemma index_from_sound (k : nat) (p s : string) (i : nat) :
  index_from k p s = Some i → ∃ j, i = k + j ∧ occurs_at j p s = true.
Proof.
  revert k. induction s as [|c s IH]; intros k; simpl.
  - destruct (starts_with p EmptyString) eqn:E; [|done].
    intros [= <-]. exists 0. by rewrite Nat.add_0_r.
  - destruct (starts_with p (String c s)) eqn:E.
    + intros [= <-]. exists 0. by rewrite Nat.add_0_r.
    + intros H. destruct (IH _ H) as (j & -> & Hj).
      exists (S j). split; [lia | done].
Qed.

Lemma index_from_complete (k j : nat) (p s : string) :
  occurs_at j p s = true → ∃ i, index_from k p s = Some i ∧ i ≤ k + j.
Proof.
  revert k j. induction s as [|c s IH]; intros k j H.
  - destruct j; simpl in *; [|done]. rewrite H. exists k. split; [done | lia].
  - simpl. destruct (starts_with p (String c s)) eqn:E.
    + exists k. split; [done | lia].
    + destruct j as [|j]; simpl in H; [congruence |].
      destruct (IH (S k) j H) as (i & Hi & Hle). exists i. split; [done | lia].
Qed.

(** A text is included exactly when it stands at some offset. *)
Lemma includes_iff (p s : string) :
  includes p s = true ↔ ∃ n, occurs_at n p s = true.
Proof.
  unfold includes, indexOf. rewrite bool_decide_eq_true. split.
  - intros [i Hi]. destruct (index_from_sound _ _ _ _ Hi) as (j & _ & Hj). eauto.
  - intros [n Hn]. destruct (index_from_complete 0 _ _ _ Hn) as (i & Hi & _). eauto.
Qed.

Lemma includes_app (a p s : string) : includes p (a +:+ p +:+ s) = true.
Proof. apply includes_iff. exists (String.length a). apply occurs_at_app. Qed.

End Text.

(* ===================================================================== *)
(** ** Base64, as [Buffer] encodes and decodes it *)
(* ===================================================================== *)

Module Base64.

Definition alphabet : string :=
  "ABCDEFGHIJKLMNOPQRSTUVWXYZabcdefghijklmnopqrstuvwxyz0123456789+/".

Definition pad : ascii := ascii_of_nat 61.

(** The character of a six-bit value. *)
Definition char_of (i : nat) : ascii :=
  match String.get i alphabet with
  | Some c => c
  | None => pad
  end.

Fixpoint find_index (k : nat) (c : ascii) (s : string) : nat :=
  match s with
  | EmptyString => 0
  | String x s' => if decide (x = c) then k else find_index (S k) c s'
  end.

(** The six-bit value of a character of the alphabet. *)
Definition index_of (c : ascii) : nat := find_index 0 c alphabet.

(** [Buffer.from(s).toString("base64")]: three bytes become four characters,
    the last group is padded with [=]. *)
Fixpoint encode (s : string) : string :=
  match s with
  | EmptyString => EmptyString
  | String a EmptyString =>
      let x := nat_of_ascii a in
      String (char_of (x / 4)) (String (char_of (x mod 4 * 16))
        (String pad (String pad EmptyString)))
  | String a (String b EmptyString) =>
      let x := nat_of_ascii a in
      let y := nat_of_ascii b in
      String (char_of (x / 4)) (String (char_of (x mod 4 * 16 + y / 16))
        (String (char_of (y mod 16 * 4)) (String pad EmptyString)))
  | String a (String b (String c rest)) =>
      let x := nat_of_ascii a in
      let y := nat_of_ascii b in
      let z := nat_of_ascii c in
      String (char_of (x / 4)) (String (char_of (x mod 4 * 16 + y / 16))
        (String (char_of (y mod 16 * 4 + z / 64)) (String (char_of (z mod 64))
          (encode rest))))
  end.

(** [Buffer.from(t, "base64").toString("utf8")] on a padded base64 text:
    four characters become three bytes, a padded group ends the text. *)
Fixpoint decode (t : string) : string :=
  match t with
  | String c1 (String c2 (String c3 (String c4 rest))) =>
      let i1 := index_of c1 in
      let i2 := index_of c2 in
      let i3 := index_of c3 in
      let i4 := index_of c4 in
      let b1 := ascii_of_nat (i1 * 4 + i2 / 16) in
      let b2 := ascii_of_nat (i2 mod 16 * 16 + i3 / 4) in
      let b3 := ascii_of_nat (i3 mod 4 * 64 + i4) in
      if decide (c3 = pad) then String b1 EmptyString
      else if decide (c4 = pad) then String b1 (String b2 EmptyString)
      else String b1 (String b2 (String b3 (decode rest)))
  | _ => EmptyString
  end.

(** The texts that [toString(base64)] writes: [decode] is defined for
    them. *)
Definition is_encoding (t : string) : bool := bool_decide (encode (decode t) = t).

Example encode_secret : encode "secret" = "c2VjcmV0".
Proof. reflexivity. Qed.

Example encode_hunter2 : encode "hunter2" = "aHVudGVyMg==".
Proof. reflexivity. Qed.

Lemma char_of_spec (i : nat) :
  i < 64 → index_of (char_of i) = i ∧ char_of i ≠ pad.
Proof.
  intros Hi.
  assert (H : forallb (λ i, bool_decide (index_of (char_of i) = i ∧ char_of i ≠ pad))
                (seq 0 64) = true) by (vm_compute; reflexivity).
  rewrite forallb_forall in H.
  specialize (H i). rewrite bool_decide_eq_true in H.
  apply H, in_seq. lia.
Qed.

Lemma index_char (i : nat) : i < 64 → index_of (char_of i) = i.
Proof. intros. by apply char_of_spec. Qed.

Lemma char_not_pad (i : nat) : i < 64 → char_of i ≠ pad.
Proof. intros. by apply char_of_spec. Qed.

(** Induction over a text three bytes at a time, as [encode] reads it. *)
Lemma triples_ind (P : string → Prop) :
  P EmptyString →
  (∀ a, P (String a EmptyString)) →
  (∀ a b, P (String a (String b EmptyString))) →
  (∀ a b c s, P s → P (String a (String b (String c s)))) →
  ∀ s, P s.
Proof.
  intros H0 H1 H2 H3 s.
  assert (H : P s ∧ (∀ a, P (String a s)) ∧ (∀ a b, P (String a (String b s)))).
  { induction s as [|c s (IH0 & IH1 & IH2)]; [by auto |].
    split; [apply IH1 |]. split; [intros a; apply IH2 |].
    intros a b. by apply H3. }
  apply H.
Qed.

(** Division and remainder by a constant, replaced by their defining
    equations so that [lia] decides the goal. *)
Local Ltac div_mod_fact x k :=
  let d := fresh "d" in
  let r := fresh "r" in
  pose proof (Nat.div_mod_eq x k);
  pose proof (Nat.mod_upper_bound x k ltac:(lia));
  generalize dependent (x / k); generalize dependent (x mod k);
  intros r d; intros.

Local Ltac div_mod_facts :=
  repeat match goal with
    | |- context [?x / ?k] => div_mod_fact x k
    | |- context [?x mod ?k] => div_mod_fact x k
    | _ : context [?x / ?k] |- _ => div_mod_fact x k
    | _ : context [?x mod ?k] |- _ => div_mod_fact x k
    end.

Local Ltac arith := intros; div_mod_facts; lia.

Section Groups.
Variables x y z : nat.
Hypothesis Hx : x < 256.
Hypothesis Hy : y < 256.
Hypothesis Hz : z < 256.

Lemma sextet1 : x / 4 < 64.
Proof using Hx. clear Hy Hz. generalize Hx. arith. Qed.

Lemma sextet2 : x mod 4 * 16 + y / 16 < 64.
Proof using Hy. clear Hx Hz. generalize Hy. arith. Qed.

Lemma sextet2_last : x mod 4 * 16 < 64.
Proof using Type. clear Hx Hy Hz. arith. Qed.

Lemma sextet3 : y mod 16 * 4 + z / 64 < 64.
Proof using Hz. clear Hx Hy. generalize Hz. arith. Qed.

Lemma sextet3_last : y mod 16 * 4 < 64.
Proof using Type. clear Hx Hy Hz. arith. Qed.

Lemma sextet4 : z mod 64 < 64.
Proof using Type. clear Hx Hy Hz. arith. Qed.

Lemma octet1 : x / 4 * 4 + (x mod 4 * 16 + y / 16) / 16 = x.
Proof using Hy. clear Hx Hz. generalize Hy. arith. Qed.

Lemma octet1_last : x / 4 * 4 + (x mod 4 * 16) / 16 = x.
Proof using Type. clear Hx Hy Hz. arith. Qed.

Lemma octet2 :
  (x mod 4 * 16 + y / 16) mod 16 * 16 + (y mod 16 * 4 + z / 64) / 4 = y.
Proof using Hy Hz. clear Hx. generalize Hy Hz. arith. Qed.

Lemma octet2_last :
  (x mod 4 * 16 + y / 16) mod 16 * 16 + (y mod 16 * 4) / 4 = y.
Proof using Hy. clear Hx Hz. generalize Hy. arith. Qed.

Lemma octet3 : (y mod 16 * 4 + z / 64) mod 4 * 64 + z mod 64 = z.
Proof using Hz. clear Hx Hy. generalize Hz. arith. Qed.
End Groups.

Lemma encode_three (a b c : ascii) (s : string) :
  encode (String a (String b (String c s))) =
  String (char_of (nat_of_ascii a / 4))
    (String (char_of (nat_of_ascii a mod 4 * 16 + nat_of_ascii b / 16))
      (String (char_of (nat_of_ascii b mod 16 * 4 + nat_of_ascii c / 64))
        (String (char_of (nat_of_ascii c mod 64)) (encode s)))).
Proof. reflexivity. Qed.

Lemma decode_four (c1 c2 c3 c4 : ascii) (rest : string) :
  decode (String c1 (String c2 (String c3 (String c4 rest)))) =
  if decide (c3 = pad)
  then String (ascii_of_nat (index_of c1 * 4 + index_of c2 / 16)) EmptyString
  else if decide (c4 = pad)
  then String (ascii_of_nat (index_of c1 * 4 + index_of c2 / 16))
         (String (ascii_of_nat (index_of c2 mod 16 * 16 + index_of c3 / 4)) EmptyString)
  else String (ascii_of_nat (index_of c1 * 4 + index_of c2 / 16))
         (String (ascii_of_nat (index_of c2 mod 16 * 16 + index_of c3 / 4))
           (String (ascii_of_nat (index_of c3 mod 4 * 64 + index_of c4)) (decode rest))).
Proof. reflexivity. Qed.

(** Decoding what [encode] wrote gives the bytes back. *)
Lemma decode_encode (s : string) : decode (encode s) = s.
Proof.
  induction s as [|a|a b|a b c s IH] using triples_ind.
  - reflexivity.
  - pose proof (nat_ascii_bounded a) as Ha.
    change (encode (String a EmptyString)) with
      (String (char_of (nat_of_ascii a / 4)) (String (char_of (nat_of_ascii a mod 4 * 16))
        (String pad (String pad EmptyString)))).
    rewrite decode_four, decide_True by done.
    rewrite !index_char by auto using sextet1, sextet2_last.
    by rewrite octet1_last, ascii_nat_embedding.
  - pose proof (nat_ascii_bounded a) as Ha. pose proof (nat_ascii_bounded b) as Hb.
    change (encode (String a (String b EmptyString))) with
      (String (char_of (nat_of_ascii a / 4))
        (String (char_of (nat_of_ascii a mod 4 * 16 + nat_of_ascii b / 16))
          (String (char_of (nat_of_ascii b mod 16 * 4)) (String pad EmptyString)))).
    rewrite decode_four.
    rewrite decide_False by auto using char_not_pad, sextet3_last.
    rewrite decide_True by done.
    rewrite !index_char by auto using sextet1, sextet2, sextet3_last.
    by rewrite octet1, octet2_last, !ascii_nat_embedding.
  - pose proof (nat_ascii_bounded a) as Ha. pose proof (nat_ascii_bounded b) as Hb.
    pose proof (nat_ascii_bounded c) as Hc.
    rewrite encode_three, decode_four.
    rewrite !decide_False by auto using char_not_pad, sextet3, sextet4.
    rewrite !index_char by auto using sextet1, sextet2, sextet3, sextet4.
    by rewrite octet1, octet2, octet3, !ascii_nat_embedding, IH.
Qed.

End Base64.

(* ===================================================================== *)
(** ** Strings of UTF-16 code units and [Buffer.from] *)
(* ===================================================================== *)

Module Utf16.

(** A string as JavaScript has it: a sequence of UTF-16 code units, each
    below 65536.  A unit from D800 to DBFF (a high surrogate) followed by
    one from DC00 to DFFF (a low surrogate) stands for one code point above
    FFFF; a surrogate outside such a pair is a lone surrogate. *)
Abbreviation JsString := (list N).

Definition is_high (u : N) : bool := ((0xD800 <=? u) && (u <=? 0xDBFF))%N.
Definition is_low (u : N) : bool := ((0xDC00 <=? u) && (u <=? 0xDFFF))%N.

(** The code point of a pair of surrogates. *)
Definition pair_code_point (hi lo : N) : N :=
  (0x10000 + N.shiftl (hi - 0xD800) 10 + (lo - 0xDC00))%N.

(** A text by its bytes. *)
Definition bytes (l : list N) : string :=
  String.string_of_list_ascii (ascii_of_N <$> l).

(** The UTF-8 bytes of the code point [c]. *)
Definition utf8 (c : N) : string :=
  if (c <? 0x80)%N then bytes [c]
  else if (c <? 0x800)%N
  then bytes [N.lor 0xC0 (N.shiftr c 6); N.lor 0x80 (N.land c 0x3F)]
  else if (c <? 0x10000)%N
  then bytes [N.lor 0xE0 (N.shiftr c 12);
              N.lor 0x80 (N.land (N.shiftr c 6) 0x3F);
              N.lor 0x80 (N.land c 0x3F)]
  else bytes [N.lor 0xF0 (N.shiftr c 18);
              N.lor 0x80 (N.land (N.shiftr c 12) 0x3F);
              N.lor 0x80 (N.land (N.shiftr c 6) 0x3F);
              N.lor 0x80 (N.land c 0x3F)].

(** The bytes EF BF BD of U+FFFD, the replacement character. *)
Definition replacement : string := utf8 0xFFFD.

(** [Buffer.from(s)]: the UTF-8 encoding of [s].  A pair of surrogates
    gives the four bytes of its code point, and a lone surrogate gives the
    replacement character: strings that differ in a lone surrogate only
    have the same bytes. *)
Fixpoint Buffer_from (s : JsString) : string :=
  match s with
  | [] => EmptyString
  | u :: s' =>
      if is_high u
      then match s' with
           | v :: s'' =>
               if is_low v
               then utf8 (pair_code_point u v) +:+ Buffer_from s''
               else replacement +:+ Buffer_from s'
           | [] => replacement
           end
      else if is_low u then replacement +:+ Buffer_from s'
      else utf8 u +:+ Buffer_from s'
  end.

(** Truthiness of a string that may be absent: [null], [undefined] and the
    empty string are falsy. *)
Definition truthy (s : option JsString) : bool :=
  match s with
  | Some (_ :: _) => true
  | _ => false
  end.

(** The code units of a text of ASCII characters. *)
Definition of_ascii (s : string) : JsString :=
  N_of_ascii <$> String.list_ascii_of_string s.

End Utf16.

(* ===================================================================== *)
(** ** Thrown values *)
(* ===================================================================== *)

(** What a [throw] carries: the error's [name] and [message]. *)
Record JsError := mkError { err_name : string; err_message : string }.

#[global] Instance JsError_eq_dec : EqDecision JsError.
Proof. solve_decision. Defined.

(** The outcome of evaluating an expression that may throw. *)
Inductive Result (A : Type) : Type :=
| Ok (a : A)
| Throw (e : JsError).
Arguments Ok {A} a.
Arguments Throw {A} e.

#[global] Instance Result_eq_dec {A} `{EqDecision A} : EqDecision (Result A).
Proof. solve_decision. Defined.

Definition ReferenceError (name : string) : JsError :=
  mkError "ReferenceError" (name +:+ " is not defined").

(* ===================================================================== *)
(** ** Preset configurations *)
(* ===================================================================== *)

Module Presets.

(** The closures a configuration holds as its [identifierGenerator], by the
    name the source gives them.  They draw random names for the engine; the
    properties below concern which generator a preset holds. *)
Inductive NameGenerator :=
| generateNebulaName
| generateNovaName
| generateArabicName
| generateJapaneseXArabName
| generateJapaneseName.

#[global] Instance NameGenerator_eq_dec : EqDecision NameGenerator.
Proof. solve_decision. Defined.

(** The values of the options of a configuration object. *)
Inductive OptionValue :=
| VBool (b : bool)
| VNum (x : Q)
| VStr (s : string)
| VFun (g : NameGenerator)
| VLock (l : gmap string bool).

(** A configuration is a JavaScript object: option name to value. *)
Abbreviation Config := (gmap string OptionValue).

Definition getUltraSafeConfig : Config :=
  list_to_map [
    ("target", VStr "node");
    ("calculator", VBool true);
    ("compact", VBool true);
    ("hexadecimalNumbers", VBool true);
    ("controlFlowFlattening", VNum 1);
    ("deadCode", VNum 1);
    ("dispatcher", VBool true);
    ("duplicateLiteralsRemoval", VNum 1);
    ("flatten", VBool true);
    ("globalConcealing", VBool true);
    ("identifierGenerator", VStr "zeroWidth");
    ("renameVariables", VBool true);
    ("renameGlobals", VBool true);
    ("minify", VBool true);
    ("movedDeclarations", VBool true);
    ("objectExtraction", VBool true);
    ("opaquePredicates", VNum (3 # 4));
    ("stringConcealing", VBool true);
    ("stringCompression", VBool true);
    ("stringEncoding", VBool true);
    ("stringSplitting", VNum (3 # 4));
    ("rgf", VBool false)
  ].

Definition getNebulaObfuscationConfig : Config :=
  list_to_map [
    ("target", VStr "node");
    ("compact", VBool true);
    ("renameVariables", VBool true);
    ("renameGlobals", VBool true);
    ("identifierGenerator", VFun generateNebulaName);
    ("stringCompression", VBool true);
    ("stringConcealing", VBool false);
    ("stringEncoding", VBool true);
    ("stringSplitting", VBool false);
    ("controlFlowFlattening", VNum 1);
    ("flatten", VBool true);
    ("shuffle", VBool true);
    ("rgf", VBool true);
    ("deadCode", VBool true);
    ("opaquePredicates", VBool true);
    ("dispatcher", VBool true);
    ("globalConcealing", VBool true);
    ("objectExtraction", VBool true);
    ("duplicateLiteralsRemoval", VBool true);
    ("lock", VLock (list_to_map [
       ("selfDefending", true);
       ("antiDebug", true);
       ("integrity", true);
       ("tamperProtection", true) ]))
  ].

Definition getNovaObfuscationConfig : Config :=
  list_to_map [
    ("target", VStr "node");
    ("calculator", VBool false);
    ("compact", VBool true);
    ("controlFlowFlattening", VNum 1);
    ("deadCode", VNum 1);
    ("dispatcher", VBool true);
    ("duplicateLiteralsRemoval", VNum 1);
    ("flatten", VBool true);
    ("globalConcealing", VBool true);
    ("hexadecimalNumbers", VNum 1);
    ("identifierGenerator", VFun generateNovaName);
    ("lock", VLock (list_to_map [
       ("antiDebug", true);
       ("integrity", true);
       ("selfDefending", true) ]));
    ("minify", VBool true);
    ("movedDeclarations", VBool true);
    ("objectExtraction", VBool true);
    ("opaquePredicates", VBool true);
    ("renameGlobals", VBool true);
    ("renameVariables", VBool true);
    ("shuffle", VBool true);
    ("stack", VBool true);
    ("stringCompression", VBool true);
    ("stringConcealing", VBool true)
  ].

Definition getArabObfuscationConfig : Config :=
  list_to_map [
    ("target", VStr "node");
    ("compact", VBool true);
    ("renameVariables", VBool true);
    ("renameGlobals", VBool true);
    ("identifierGenerator", VFun generateArabicName);
    ("stringEncoding", VBool true);
    ("stringSplitting", VBool true);
    ("controlFlowFlattening", VNum 1);
    ("shuffle", VBool true);
    ("duplicateLiteralsRemoval", VBool true);
    ("deadCode", VBool true);
    ("calculator", VBool true);
    ("opaquePredicates", VBool true);
    ("lock", VLock (list_to_map [
       ("selfDefending", true);
       ("antiDebug", true);
       ("integrity", true);
       ("tamperProtection", true) ]))
  ].

Definition getJapanxArabObfuscationConfig : Config :=
  list_to_map [
    ("target", VStr "node");
    ("compact", VBool true);
    ("renameVariables", VBool true);
    ("renameGlobals", VBool true);
    ("identifierGenerator", VFun generateJapaneseXArabName);
    ("stringCompression", VBool true);
    ("stringConcealing", VBool true);
    ("stringEncoding", VBool true);
    ("stringSplitting", VBool true);
    ("controlFlowFlattening", VNum 1);
    ("flatten", VBool true);
    ("shuffle", VBool true);
    ("rgf", VBool false);
    ("dispatcher", VBool true);
    ("duplicateLiteralsRemoval", VBool true);
    ("deadCode", VBool true);
    ("calculator", VBool true);
    ("opaquePredicates", VBool true);
    ("lock", VLock (list_to_map [
       ("selfDefending", true);
       ("antiDebug", true);
       ("integrity", true);
       ("tamperProtection", true) ]))
  ].

Definition getJapanObfuscationConfig : Config :=
  list_to_map [
    ("target", VStr "node");
    ("compact", VBool true);
    ("renameVariables", VBool true);
    ("renameGlobals", VBool true);
    ("identifierGenerator", VFun generateJapaneseName);
    ("stringEncoding", VBool true);
    ("stringSplitting", VBool true);
    ("controlFlowFlattening", VNum 1);
    ("flatten", VBool true);
    ("shuffle", VBool true);
    ("duplicateLiteralsRemoval", VBool true);
    ("deadCode", VBool true);
    ("calculator", VBool true);
    ("opaquePredicates", VBool true);
    ("lock", VLock (list_to_map [
       ("selfDefending", true);
       ("antiDebug", true);
       ("integrity", true);
       ("tamperProtection", true) ]))
  ].

(** The configuration functions the file declares, by name: the bindings of
    the module scope that a call by name can reach. *)
Definition module_scope : gmap string Config :=
  list_to_map [
    ("getUltraSafeConfig", getUltraSafeConfig);
    ("getNebulaObfuscationConfig", getNebulaObfuscationConfig);
    ("getNovaObfuscationConfig", getNovaObfuscationConfig);
    ("getArabObfuscationConfig", getArabObfuscationConfig);
    ("getJapanxArabObfuscationConfig", getJapanxArabObfuscationConfig);
    ("getJapanObfuscationConfig", getJapanObfuscationConfig)
  ].

(** A call [name()] of a configuration function: the value of the binding,
    or the [ReferenceError] that a name without declaration raises. *)
Definition call (name : string) : Result Config :=
  match module_scope !! name with
  | Some cfg => Ok cfg
  | None => Throw (ReferenceError name)
  end.

(** [(preset || EmptyString).toLowerCase()], with [None] for an absent name. *)
Definition presetKey (preset : option string) : string :=
  Text.toLowerCase (default EmptyString preset).

(** The conditional expression that picks [cfg] in the [start] handler. *)
Definition selectConfig (preset : option string) : Result Config :=
  if decide (presetKey preset = "nova") then call "getNovaObfuscationConfig"
  else if decide (presetKey preset = "nebula") then call "getNebulaObfuscationConfig"
  else if decide (presetKey preset = "arab") then call "getArabObfuscationConfig"
  else if decide (presetKey preset = "japan") then call "getJapanObfuscationConfig"
  else call "getDefaultConfig".

(** The names the conditional expression of the handler compares with. *)
Definition dispatched : list string := ["nova"; "nebula"; "arab"; "japan"].

(** The guards a lock policy can name. *)
Definition lock_guards : list string :=
  ["selfDefending"; "antiDebug"; "integrity"; "tamperProtection"].

(** [enables cfg g]: the configuration has a lock policy whose toggle [g]
    is [true]. *)
Definition enables (cfg : Config) (g : string) : bool :=
  match cfg !! "lock" with
  | Some (VLock l) => bool_decide (l !! g = Some true)
  | _ => false
  end.

End Presets.

(* ===================================================================== *)
(** ** The code wrapper *)
(* ===================================================================== *)

Module Wrapper.
Import Text.

(** The anti-bypass guard: a block of code that does not depend on the user source. *)
Definition TByypas : string :=
  lines [
    "(async () => {";
    "  const fs = require(" +:+ q "fs" +:+ ");";
    "  const path = require(" +:+ q "path" +:+ ");";
    "  const C = require(" +:+ q "chalk" +:+ ");";
    "  const A = require(" +:+ q "axios" +:+ ");";
    "  const pkg = JSON.parse(fs.readFileSync(path.join(process.cwd(), " +:+ q "package.json" +:+ "), " +:+ q "utf8" +:+ "));";
    "  let mainFile;";
    "  if (pkg.main) {";
    "    mainFile = path.resolve(process.cwd(), pkg.main);";
    "  } else if (pkg.scripts && pkg.scripts.start) {";
    "    const parts = pkg.scripts.start.split(" +:+ q " " +:+ ");";
    "    mainFile = path.resolve(process.cwd(), parts[parts.length - 1]);";
    "  } else {";
    "    mainFile = process.argv[1];";
    "  }";
    "  const snapshot = fs.readFileSync(mainFile, " +:+ q "utf8" +:+ ");";
    "  setInterval(() => {";
    "    const now = fs.readFileSync(mainFile, " +:+ q "utf8" +:+ ");";
    "    if (snapshot !== now) {";
    "      console.log(C.redBright(" +:+ q "[ ⚠️ ] File sedang dirombak!" +:+ "));";
    "      process.abort();";
    "    }";
    "  }, 2000);";
    "  if (A.interceptors && A.interceptors.request.handlers.length > 0) {";
    "    console.log(C.redBright(" +:+ q "[ ⚠️ ] Axios interceptor detected!" +:+ "));";
    "    process.abort();";
    "  }";
    "  Object.freeze(A);";
    "  Object.seal(A);";
    "})();"
  ].

(** The password template from its first line to the opening quote of the
    encoded password. *)
Definition gate_open : string :=
  lines [
    "(async () => {";
    "const readline = require('readline');";
    "const chalk = require('chalk');";
    "const passwordBuffer = Buffer.from('"
  ].

(** The password template from the closing quote of the encoded password to
    the line before the wrapped code: the prompt and the comparison. *)
Definition gate_check : string :=
  lines [
    "', 'base64');";
    "const correctPassword = passwordBuffer.toString('utf8');";
    "const rl = readline.createInterface({";
    "  input: process.stdin,";
    "  output: process.stdout";
    "});";
    "console.clear();";
    "console.log(chalk.bold.red(" +:+ q "🔑 MASUKKAN PASSWORD:" +:+ "));";
    "rl.question('> ', (inputPassword) => {";
    "  if (inputPassword !== correctPassword) {";
    "    console.log(chalk.bold.red(" +:+ q "❌ PASSWORD SALAH" +:+ "));";
    "    process.exit(1);";
    "  }";
    EmptyString
  ].

(** The password template after the wrapped code. *)
Definition gate_close : string :=
  lines [
    EmptyString;
    "  rl.close();";
    "});";
    "})();"
  ].

(** [createPasswordTemplate(encodedPassword, originalCode)]: the guard, then
    the gate with the two values spliced in. *)
Definition createPasswordTemplate (encodedPassword originalCode : string) : string :=
  TByypas +:+ nl +:+
  gate_open +:+ encodedPassword +:+ gate_check +:+ originalCode +:+ gate_close.

(** Truthiness of a text that may be absent: [null], [undefined] and the
    empty text are falsy. *)
Definition truthy_text (t : option string) : bool :=
  match t with
  | Some s => negb (bool_decide (s = EmptyString))
  | None => false
  end.

(** [Buffer.from(password).toString(base64)]. *)
Definition encoded (password : Utf16.JsString) : string :=
  Base64.encode (Utf16.Buffer_from password).

(** The text [base] that [obfuscateWithOptions] hands to the engine: the
    guard is put in front of the code when [addAntiBypass] holds, and the
    password template is applied to the result when a password is given. *)
Definition wrapped (code : string) (addAntiBypass : bool) (password : option Utf16.JsString)
  : string :=
  let base := if addAntiBypass then TByypas +:+ nl +:+ code else code in
  if Utf16.truthy password
  then createPasswordTemplate (encoded (default [] password)) base
  else base.

(** Where the gate begins in a template: after the guard and a line feed. *)
Definition gate_start : nat := String.length TByypas + 1.

(** Where the wrapped code begins in the template of [encodedPassword]. *)
Definition payload_start (encodedPassword : string) : nat :=
  gate_start + String.length gate_open + String.length encodedPassword
  + String.length gate_check.

(** The literal of the template that holds the encoded password. *)
Definition password_literal (encodedPassword : string) : string :=
  "Buffer.from('" +:+ encodedPassword +:+ "', 'base64')".

Lemma createPasswordTemplate_unfold (e c : string) :
  createPasswordTemplate e c =
  TByypas +:+ nl +:+ gate_open +:+ e +:+ gate_check +:+ c +:+ gate_close.
Proof. reflexivity. Qed.

End Wrapper.

(* ===================================================================== *)
(** ** The password gate as a program *)
(* ===================================================================== *)

(** The gate of the template is JavaScript that the server writes and the
    user of the artifact runs.  Here it is a syntax tree of the fragment of
    JavaScript it is written in, with the printer that gives the text of
    the template back and an evaluator for the fragment.  The guard in
    front of the gate is a block of its own and is not evaluated here: it
    can only end the process before the gate is reached.  The text put in
    place of [originalCode] is taken to be a sequence of statements of its
    own, so that the braces of the template pair as they are written. *)

Module Gate.
Import Text.

Inductive Quote := Single | Double.

#[local] Unset Elimination Schemes.
Inductive Expr :=
| Var (x : string)                        (** an identifier *)
| Str (q : Quote) (s : string)            (** a string literal without escapes *)
| Num (n : Z)                             (** a whole number *)
| Member (e : Expr) (f : string)          (** [e.f] *)
| Call (f : Expr) (args : list Expr)      (** [f(a, b)] *)
| Object (fields : list (string * Expr))  (** an object literal, a field per line *)
| NotEqual (a b : Expr)                   (** [a !== b] *)
| Arrow (param : string) (body : list Stmt)  (** [(x) => { ... }] *)
with Stmt :=
| Const (x : string) (e : Expr)           (** [const x = e;] *)
| Do (e : Expr)                           (** [e;] *)
| If (c : Expr) (body : list Stmt)        (** [if (c) { ... }] *)
| Spliced (code : string).                (** the text put in place of [originalCode] *)
#[local] Set Elimination Schemes.

(** The statements of the async function of the template. *)
Definition gate_body (encodedPassword originalCode : string) : list Stmt :=
  [ Const "readline" (Call (Var "require") [Str Single "readline"]);
    Const "chalk" (Call (Var "require") [Str Single "chalk"]);
    Const "passwordBuffer"
      (Call (Member (Var "Buffer") "from") [Str Single encodedPassword; Str Single "base64"]);
    Const "correctPassword"
      (Call (Member (Var "passwordBuffer") "toString") [Str Single "utf8"]);
    Const "rl"
      (Call (Member (Var "readline") "createInterface")
         [Object [("input", Member (Var "process") "stdin");
                  ("output", Member (Var "process") "stdout")]]);
    Do (Call (Member (Var "console") "clear") []);
    Do (Call (Member (Var "console") "log")
          [Call (Member (Member (Var "chalk") "bold") "red")
             [Str Double "🔑 MASUKKAN PASSWORD:"]]);
    Do (Call (Member (Var "rl") "question")
          [Str Single "> ";
           Arrow "inputPassword"
             [ If (NotEqual (Var "inputPassword") (Var "correctPassword"))
                 [ Do (Call (Member (Var "console") "log")
                         [Call (Member (Member (Var "chalk") "bold") "red")
                            [Str Double "❌ PASSWORD SALAH"]]);
                   Do (Call (Member (Var "process") "exit") [Num 1]) ];
               Spliced originalCode;
               Do (Call (Member (Var "rl") "close") []) ]]) ].

(** *** The printer *)

Definition quote_text (q : Quote) : string :=
  match q with
  | Single => String (ascii_of_nat 39) EmptyString
  | Double => dq
  end.

Fixpoint spaces (n : nat) (k : string) : string :=
  match n with
  | 0 => k
  | S n' => String (ascii_of_nat 32) (spaces n' k)
  end.

(** The text of an expression and of a statement that stand at the
    indentation [i], put in front of the text [k].  Statements end their
    line; the bodies of functions and of [if] and the fields of objects
    are indented by two more spaces; spliced text is put as it is. *)
Fixpoint print_expr (i : nat) (e : Expr) (k : string) {struct e} : string :=
  match e with
  | Var x => x +:+ k
  | Str q s => quote_text q +:+ s +:+ quote_text q +:+ k
  | Num n => pretty n +:+ k
  | Member e' f => print_expr i e' ("." +:+ f +:+ k)
  | Call f args =>
      print_expr i f
        ("(" +:+
         (fix print_args (first : bool) (l : list Expr) (k : string) : string :=
            match l with
            | [] => k
            | a :: l' =>
                (if first then EmptyString else ", ") +:+
                print_expr i a (print_args false l' k)
            end) true args (")" +:+ k))
  | Object fields =>
      "{" +:+ nl +:+
      (fix print_fields (l : list (string * Expr)) (k : string) : string :=
         match l with
         | [] => k
         | (name, a) :: l' =>
             spaces (i + 2) (name +:+ ": " +:+
               print_expr (i + 2) a
                 ((match l' with [] => EmptyString | _ => "," end) +:+ nl +:+
                  print_fields l' k))
         end) fields (spaces i ("}" +:+ k))
  | NotEqual a b => print_expr i a (" !== " +:+ print_expr i b k)
  | Arrow x body =>
      "(" +:+ x +:+ ") => {" +:+ nl +:+
      (fix print_body (l : list Stmt) (k : string) : string :=
         match l with
         | [] => k
         | s :: l' => print_stmt (i + 2) s (print_body l' k)
         end) body (spaces i ("}" +:+ k))
  end
with print_stmt (i : nat) (s : Stmt) (k : string) {struct s} : string :=
  match s with
  | Const x e => spaces i ("const " +:+ x +:+ " = " +:+ print_expr i e (";" +:+ nl +:+ k))
  | Do e => spaces i (print_expr i e (";" +:+ nl +:+ k))
  | If c body =>
      spaces i ("if (" +:+ print_expr i c (") {" +:+ nl +:+
        (fix print_body (l : list Stmt) (k : string) : string :=
           match l with
           | [] => k
           | s :: l' => print_stmt (i + 2) s (print_body l' k)
           end) body (spaces i ("}" +:+ nl +:+ k))))
  | Spliced code => code +:+ nl +:+ k
  end.

Fixpoint print_stmts (i : nat) (l : list Stmt) (k : string) : string :=
  match l with
  | [] => k
  | s :: l' => print_stmt i s (print_stmts i l' k)
  end.

(** [(async () => { body })();] with the body at the left margin. *)
Definition print_async (body : list Stmt) : string :=
  "(async () => {" +:+ nl +:+ print_stmts 0 body "})();".

(** *** The evaluator *)

(** Texts at run time are well-formed strings, each given by the bytes of
    its UTF-8 encoding: literals of the source text, decoded buffers and
    lines read from the terminal.  On such strings [===] is equality of
    the bytes. *)
#[local] Unset Elimination Schemes.
Inductive Value :=
| ValUndefined
| ValText (s : string)
| ValNumber (n : Z)
| ValBoolean (b : bool)
| ValBuffer (bytes : string)
| ValHost (path : list string)        (** a global, a module, or a member of one *)
| ValMethod (this : Value) (f : string)  (** [this.f], yet to be called *)
| ValObject (fields : list (string * Value))
| ValClosure (param : string) (body : list Stmt) (env : list (string * Value)).
#[local] Set Elimination Schemes.

Abbreviation Env := (list (string * Value)).

(** What the process does that can be seen from outside. *)
Inductive Action :=
| Clear                       (** [console.clear()] *)
| Log (text : string)         (** [console.log(text)], colours left out *)
| Ask (prompt : string)       (** [rl.question(prompt, ...)] shows its prompt *)
| Run (code : string)         (** the spliced text is reached and runs *)
| Close                       (** [rl.close()] *)
| Exit (status : Z).          (** [process.exit(status)] *)

#[global] Instance Action_eq_dec : EqDecision Action.
Proof. solve_decision. Defined.

(** The process: what it has done, the callbacks of [rl.question] that
    wait for a line, and its exit status once it has exited. *)
Record Process := mkProcess {
  trace : list Action;
  waiting : list Value;
  exited : option Z
}.

(** The result of a step: a value; the end of the run of the current
    function (the process has exited, or spliced text did not come to its
    end); or a step the fragment gives no meaning to. *)
Inductive Step (A : Type) :=
| Next (a : A) (p : Process)
| Halted (p : Process)
| Stuck.
Arguments Next {A} a p.
Arguments Halted {A} p.
Arguments Stuck {A}.

Definition act (a : Action) (p : Process) : Process :=
  mkProcess (trace p ++ [a]) (waiting p) (exited p).

(** The names the program finds without declaring them. *)
Definition globals : list string := ["require"; "Buffer"; "console"; "process"].

Fixpoint lookup_var (env : Env) (x : string) : option Value :=
  match env with
  | [] => None
  | (y, v) :: env' => if decide (x = y) then Some v else lookup_var env' x
  end.

(** [a !== b] on primitive values. *)
Definition strict_not_equal (a b : Value) : option bool :=
  match a, b with
  | ValText s, ValText t => Some (negb (String.eqb s t))
  | ValNumber m, ValNumber n => Some (negb (bool_decide (m = n)))
  | ValBoolean x, ValBoolean y => Some (negb (bool_decide (x = y)))
  | ValUndefined, ValUndefined => Some false
  | ValText _, (ValNumber _ | ValBoolean _ | ValUndefined) => Some true
  | ValNumber _, (ValText _ | ValBoolean _ | ValUndefined) => Some true
  | ValBoolean _, (ValText _ | ValNumber _ | ValUndefined) => Some true
  | ValUndefined, (ValText _ | ValNumber _ | ValBoolean _) => Some true
  | _, _ => None
  end.

Definition truthy_value (v : Value) : bool :=
  match v with
  | ValUndefined => false
  | ValText s => negb (bool_decide (s = EmptyString))
  | ValNumber n => negb (bool_decide (n = 0%Z))
  | ValBoolean b => b
  | _ => true
  end.

Section Host.
(** [buffer.toString(utf8)]: the decoded string (by its bytes, as every
    text here), which has the bytes of the buffer when these are
    well-formed UTF-8. *)
Variable toString_utf8 : string → string.
(** Whether the spliced text, once it runs, comes to its end: it may as
    well throw, leave the process or not return. *)
Variable completes : string → bool.

(** A call of a function of the host with evaluated arguments.  The
    modules the template requires are taken to be installed, and
    [Buffer.from(t, base64)] is given a meaning for the texts that
    [toString(base64)] writes. *)
Definition call_host (f : Value) (args : list Value) (p : Process) : Step Value :=
  match f, args with
  | ValHost ["require"], [ValText name] => Next (ValHost [name]) p
  | ValHost ["Buffer"; "from"], [ValText t; ValText "base64"] =>
      if Base64.is_encoding t then Next (ValBuffer (Base64.decode t)) p else Stuck
  | ValMethod (ValBuffer b) "toString", [ValText "utf8"] => Next (ValText (toString_utf8 b)) p
  | ValHost ["readline"; "createInterface"], [ValObject _] => Next (ValHost ["readline"; "Interface"]) p
  | ValHost ["readline"; "Interface"; "question"], [ValText prompt; ValClosure x body env] =>
      Next ValUndefined
        (mkProcess (trace p ++ [Ask prompt]) (waiting p ++ [ValClosure x body env]) (exited p))
  | ValHost ["readline"; "Interface"; "close"], [] => Next ValUndefined (act Close p)
  | ValHost ["console"; "clear"], [] => Next ValUndefined (act Clear p)
  | ValHost ["console"; "log"], [ValText t] => Next ValUndefined (act (Log t) p)
  | ValHost ["chalk"; "bold"; "red"], [ValText t] => Next (ValText t) p
  | ValHost ["process"; "exit"], [ValNumber n] =>
      Halted (mkProcess (trace p ++ [Exit n]) (waiting p) (Some n))
  | _, _ => Stuck
  end.

(** [e.f] on an evaluated [e]. *)
Definition member (v : Value) (f : string) : Value :=
  match v with
  | ValHost path => ValHost (path ++ [f])
  | ValObject fields => default ValUndefined (lookup_var fields f)
  | _ => ValMethod v f
  end.

(** Evaluation of an expression and execution of a statement in the
    environment [env]; a statement returns the environment for the
    statements after it. *)
Fixpoint eval (env : Env) (e : Expr) (p : Process) {struct e} : Step Value :=
  match e with
  | Var x =>
      match lookup_var env x with
      | Some v => Next v p
      | None => if bool_decide (x ∈ globals) then Next (ValHost [x]) p else Stuck
      end
  | Str _ s => Next (ValText s) p
  | Num n => Next (ValNumber n) p
  | Member e' f =>
      match eval env e' p with
      | Next v p' => Next (member v f) p'
      | Halted p' => Halted p'
      | Stuck => Stuck
      end
  | Call f args =>
      match eval env f p with
      | Next fv p' =>
          match (fix eval_args (l : list Expr) (p : Process) : Step (list Value) :=
                   match l with
                   | [] => Next [] p
                   | a :: l' =>
                       match eval env a p with
                       | Next v p1 =>
                           match eval_args l' p1 with
                           | Next vs p2 => Next (v :: vs) p2
                           | Halted p2 => Halted p2
                           | Stuck => Stuck
                           end
                       | Halted p1 => Halted p1
                       | Stuck => Stuck
                       end
                   end) args p' with
          | Next vs p'' => call_host fv vs p''
          | Halted p'' => Halted p''
          | Stuck => Stuck
          end
      | Halted p' => Halted p'
      | Stuck => Stuck
      end
  | Object fields =>
      match (fix eval_fields (l : list (string * Expr)) (p : Process)
               : Step (list (string * Value)) :=
               match l with
               | [] => Next [] p
               | (name, a) :: l' =>
                   match eval env a p with
                   | Next v p1 =>
                       match eval_fields l' p1 with
                       | Next vs p2 => Next ((name, v) :: vs) p2
                       | Halted p2 => Halted p2
                       | Stuck => Stuck
                       end
                   | Halted p1 => Halted p1
                   | Stuck => Stuck
                   end
               end) fields p with
      | Next vs p' => Next (ValObject vs) p'
      | Halted p' => Halted p'
      | Stuck => Stuck
      end
  | NotEqual a b =>
      match eval env a p with
      | Next va p1 =>
          match eval env b p1 with
          | Next vb p2 =>
              match strict_not_equal va vb with
              | Some r => Next (ValBoolean r) p2
              | None => Stuck
              end
          | Halted p2 => Halted p2
          | Stuck => Stuck
          end
      | Halted p1 => Halted p1
      | Stuck => Stuck
      end
  | Arrow x body => Next (ValClosure x body env) p
  end.

Fixpoint exec (env : Env) (s : Stmt) (p : Process) {struct s} : Step Env :=
  match s with
  | Const x e =>
      match eval env e p with
      | Next v p' => Next ((x, v) :: env) p'
      | Halted p' => Halted p'
      | Stuck => Stuck
      end
  | Do e =>
      match eval env e p with
      | Next _ p' => Next env p'
      | Halted p' => Halted p'
      | Stuck => Stuck
      end
  | If c body =>
      match eval env c p with
      | Next v p' =>
          if truthy_value v
          then match (fix exec_block (env : Env) (l : list Stmt) (p : Process) : Step Env :=
                        match l with
                        | [] => Next env p
                        | s :: l' =>
                            match exec env s p with
                            | Next env' p1 => exec_block env' l' p1
                            | Halted p1 => Halted p1
                            | Stuck => Stuck
                            end
                        end) env body p' with
               | Next _ p'' => Next env p''
               | Halted p'' => Halted p''
               | Stuck => Stuck
               end
          else Next env p'
      | Halted p' => Halted p'
      | Stuck => Stuck
      end
  | Spliced code =>
      if completes code then Next env (act (Run code) p) else Halted (act (Run code) p)
  end.

Fixpoint exec_all (env : Env) (l : list Stmt) (p : Process) : Step Env :=
  match l with
  | [] => Next env p
  | s :: l' =>
      match exec env s p with
      | Next env' p' => exec_all env' l' p'
      | Halted p' => Halted p'
      | Stuck => Stuck
      end
  end.

(** The lines entered at the terminal are given, one after the other, to
    the callbacks that wait; the process goes on until it exits, no line
    is left, or no callback waits. *)
Fixpoint answer (lines : list string) (p : Process) : option Process :=
  match lines with
  | [] => Some p
  | line :: lines' =>
      match waiting p with
      | ValClosure x body env :: others =>
          match exec_all ((x, ValText line) :: env) body
                  (mkProcess (trace p) others (exited p)) with
          | Next _ p' => answer lines' p'
          | Halted p' => Some p'
          | Stuck => None
          end
      | _ => Some p
      end
  end.

(** The run of [(async () => { body })();] with the lines entered at the
    terminal: its body runs to its end, then the lines are answered. *)
Definition run_async (body : list Stmt) (lines : list string) : option Process :=
  match exec_all [] body (mkProcess [] [] None) with
  | Next _ p => answer lines p
  | Halted p => Some p
  | Stuck => None
  end.

End Host.

End Gate.

(* ===================================================================== *)
(** ** JavaScript values: what the engine may return *)
(* ===================================================================== *)

Module Js.
Import Text.

(** Numbers: the whole numbers (those a double holds exactly and prints
    in plain decimal digits), the negative zero, [NaN] and the infinities.
    Numbers with a fraction are left out: their decimal text is a
    floating-point algorithm, and they are truthy like every whole number
    but zero. *)
Inductive JsNumber :=
| NaN
| Infinity (negative : bool)
| NegZero
| Int (z : Z).

(** An object, by what the source can observe of it.  Reading a property
    runs no code of the object (no getter and no proxy); calling its
    methods does.  A method returns a text, or a value that is not a text
    ([None], which stands for [undefined] and for every other value that
    [fs.writeFile] refuses as data), or it throws. *)
Record JsObject := mkObject {
  (** [Some c] when [typeof result.code] is string, [c] being that field *)
  obj_code : option string;
  (** [Some r] when [typeof result.toString] is function, [r] being the
      outcome of [result.toString()] *)
  obj_toString : option (Result (option string));
  (** the outcome of [JSON.stringify(result)]: a text or [undefined], or a
      throw (a circular structure, a [BigInt] inside, a [toJSON] that
      throws) *)
  obj_json : Result (option string)
}.

(** The values of JavaScript.  [JsObj] stands for every value that is
    not one of the primitives listed before it: objects, arrays, functions
    and symbols, all of them truthy. *)
Inductive JsValue :=
| JsUndefined
| JsNull
| JsBoolean (b : bool)
| JsNum (n : JsNumber)
| JsBigInt (z : Z)
| JsStr (s : string)
| JsObj (o : JsObject).

#[global] Instance JsNumber_eq_dec : EqDecision JsNumber.
Proof. solve_decision. Defined.
#[global] Instance JsObject_eq_dec : EqDecision JsObject.
Proof. solve_decision. Defined.
#[global] Instance JsValue_eq_dec : EqDecision JsValue.
Proof. solve_decision. Defined.

(** [Number.prototype.toString]. *)
Definition number_text (n : JsNumber) : string :=
  match n with
  | NaN => "NaN"
  | Infinity false => "Infinity"
  | Infinity true => "-Infinity"
  | NegZero => "0"
  | Int z => pretty z
  end.

Definition boolean_text (b : bool) : string := if b then "true" else "false".

(** Truthiness, as [result && ...] tests it. *)
Definition truthy (v : JsValue) : bool :=
  match v with
  | JsUndefined | JsNull => false
  | JsBoolean b => b
  | JsNum NaN => false
  | JsNum (Infinity _) => true
  | JsNum NegZero => false
  | JsNum (Int z) => negb (Z.eqb z 0)
  | JsBigInt z => negb (Z.eqb z 0)
  | JsStr s => negb (bool_decide (s = EmptyString))
  | JsObj _ => true
  end.

(** [typeof v.code === string]: the field, when it is a text.  Primitive
    values have no such field. *)
Definition code_text (v : JsValue) : option string :=
  match v with
  | JsObj o => obj_code o
  | _ => None
  end.

(** [typeof v.toString === function]: the outcome of [v.toString()].
    [undefined] and [null] have no properties; booleans, numbers, big
    integers and texts find the method of their prototype. *)
Definition toString_text (v : JsValue) : option (Result (option string)) :=
  match v with
  | JsUndefined | JsNull => None
  | JsBoolean b => Some (Ok (Some (boolean_text b)))
  | JsNum n => Some (Ok (Some (number_text n)))
  | JsBigInt z => Some (Ok (Some (pretty z)))
  | JsStr s => Some (Ok (Some s))
  | JsObj o => obj_toString o
  end.

Definition hex_digit (n : nat) : ascii :=
  match String.get n "0123456789abcdef" with
  | Some c => c
  | None => ascii_of_nat 48
  end.

(** One character inside a JSON string literal. *)
Definition json_escape_char (c : ascii) : string :=
  let n := nat_of_ascii c in
  if (n =? 34)%nat then "\" +:+ dq
  else if (n =? 92)%nat then "\\"
  else if (n =? 8)%nat then "\b"
  else if (n =? 12)%nat then "\f"
  else if (n =? 10)%nat then "\n"
  else if (n =? 13)%nat then "\r"
  else if (n =? 9)%nat then "\t"
  else if (n <? 32)%nat
       then "\u00" +:+ String (hex_digit (n / 16)) (String (hex_digit (n mod 16)) EmptyString)
  else String c EmptyString.

Fixpoint json_escape (s : string) : string :=
  match s with
  | EmptyString => EmptyString
  | String c s' => json_escape_char c +:+ json_escape s'
  end.

(** [JSON.stringify(v)]: a text, [undefined] ([None]), or a thrown
    [TypeError]: a [BigInt] cannot be serialised, and an object may refuse
    (see [obj_json]). *)
Definition JSON_stringify (v : JsValue) : Result (option string) :=
  match v with
  | JsUndefined => Ok None
  | JsNull => Ok (Some "null")
  | JsBoolean b => Ok (Some (boolean_text b))
  | JsNum (Int z) => Ok (Some (pretty z))
  | JsNum NegZero => Ok (Some "0")
  | JsNum _ => Ok (Some "null")
  | JsBigInt _ => Throw (mkError "TypeError" "Do not know how to serialize a BigInt")
  | JsStr s => Ok (Some (q (json_escape s)))
  | JsObj o => obj_json o
  end.

(** The value [obf] that [obfuscateAndWrite] takes from the engine's
    [result]: the chain of its four [if]/[else if] branches.  [Ok None]
    is a value that is not a text; the last two branches may throw. *)
Definition normalize (result : JsValue) : Result (option string) :=
  match result with
  | JsStr s => Ok (Some s)
  | _ =>
      match (if truthy result then code_text result else None) with
      | Some c => Ok (Some c)
      | None =>
          match (if truthy result then toString_text result else None) with
          | Some t => t
          | None => JSON_stringify result
          end
      end
  end.

(** The priority order in the words of the specification: a text is used
    as it is; otherwise an object whose code field is a text gives that
    field; otherwise a value that exposes a callable text conversion gives
    its conversion; otherwise the value is serialised. *)
Definition normalize_spec (result : JsValue) : Result (option string) :=
  match result with
  | JsStr s => Ok (Some s)
  | _ =>
      match code_text result with
      | Some c => Ok (Some c)
      | None =>
          match toString_text result with
          | Some t => t
          | None => JSON_stringify result
          end
      end
  end.

End Js.

(* ===================================================================== *)
(** ** The file system and the effects of the server *)
(* ===================================================================== *)

Module Server.
Import Text Presets Js.

(** An entry of a directory: [st.isFile()], [st.mtimeMs] and the text. *)
Record Node := mkNode { isFile : bool; mtimeMs : Z; content : string }.

(** Directories by path, each a map from entry name to entry. *)
Abbreviation FileSystem := (gmap string (gmap string Node)).

Definition UPLOAD_DIR : string := "uploads".
Definition OUTPUT_DIR : string := "output".

(** The calls of [fs] that may raise an I/O error.  For a write that
    fails, [OpWriteTorn] tells whether the failure came after the file was
    opened (and so truncated), and [OpWritten i] whether the byte at
    offset [i] had been written by then. *)
Inductive FsOp :=
| OpReaddir | OpStat | OpRemove | OpReadFile | OpWriteFile
| OpWriteTorn | OpWritten (i : nat).

(** What a client receives on the socket. *)
Inductive Event :=
| Progress (status : string) (percent : Z)
| Done (filename download : string)
| Error (message : string).

#[global] Instance Event_eq_dec : EqDecision Event.
Proof. solve_decision. Defined.

(** The fields of the [data] of a [start] event, each a string when it is
    there; an absent field is [None] ([antibypass] is read through [!!]). *)
Record StartData := mkStart {
  file : option string;
  preset : option string;
  password : option Utf16.JsString;
  antibypass : bool
}.

(** The state the server's code reads and writes. *)
Record State := mkState {
  fs : FileSystem;          (** the directories *)
  emitted : list Event;     (** what [socket.emit] has sent, oldest first *)
  console : list string;    (** the lines of [log] and [errLog] *)
  ticks : nat               (** how often [Date.now()] has been read *)
}.

(** A computation: it reads and writes the state and returns or throws.
    What was written before a [throw] stays written. *)
Definition M (A : Type) : Type := State → Result A * State.

Definition ret {A} (a : A) : M A := λ s, (Ok a, s).

Definition bind {A B} (m : M A) (k : A → M B) : M B :=
  λ s, match m s with
       | (Ok a, s') => k a s'
       | (Throw e, s') => (Throw e, s')
       end.

Definition throw {A} (e : JsError) : M A := λ s, (Throw e, s).

(** [try { m } catch (e) { h e }]. *)
Definition try_catch {A} (m : M A) (h : JsError → M A) : M A :=
  λ s, match m s with
       | (Ok a, s') => (Ok a, s')
       | (Throw e, s') => h e s'
       end.

Definition lift {A} (r : Result A) : M A := λ s, (r, s).

Declare Scope server_scope.
Delimit Scope server_scope with server.
Notation "x <- m ;; k" := (bind m (λ x, k))
  (at level 100, m at next level, right associativity) : server_scope.
Notation "m ;; k" := (bind m (λ _, k))
  (at level 100, right associativity) : server_scope.
Local Open Scope server_scope.

(** [for (const x of xs) body(x)]. *)
Fixpoint for_each {A} (xs : list A) (body : A → M unit) : M unit :=
  match xs with
  | [] => ret ()
  | x :: xs' => body x ;; for_each xs' body
  end.

Definition emit (e : Event) : M unit :=
  λ s, (Ok (), mkState (fs s) (emitted s ++ [e]) (console s) (ticks s)).

Definition log (line : string) : M unit :=
  λ s, (Ok (), mkState (fs s) (emitted s) (console s ++ [line]) (ticks s)).

Definition errLog (line : string) : M unit := log line.

(** [e?.message || String(e)]: the message, or for an empty message the text
    of the error, which then is its name. *)
Definition error_text (e : JsError) : string :=
  if decide (err_message e = EmptyString) then err_name e else err_message e.

Definition IOError (code : string) (dir name : string) : JsError :=
  mkError "Error" (code +:+ ": " +:+ dir +:+ "/" +:+ name).

Definition lookup_entry (t : FileSystem) (dir name : string) : option Node :=
  t !! dir ≫= (.!! name).

Section World.
(** The collaborators the server does not define. *)

(** [Date.now()] at its n-th reading. *)
Variable clock : nat → N.
(** Whether a call of [fs] on [path.join(dir, name)] fails. *)
Variable fault : FsOp → string → string → bool.
(** [JsConfuser.obfuscate(code, config)] once its promise has settled: it
    returns or throws; [None] is an [undefined] configuration.  The source
    awaits the call without a time limit: a call that never settles leaves
    the handler at that line for ever, and such runs are not modelled. *)
Variable obfuscate : string → option Config → Result JsValue.

Definition Date_now : M N :=
  λ s, (Ok (clock (ticks s)), mkState (fs s) (emitted s) (console s) (S (ticks s))).

(** [fs.existsSync(path.join(dir, name))]: never throws. *)
Definition existsSync (dir name : string) : M bool :=
  λ s, (Ok (bool_decide (is_Some (lookup_entry (fs s) dir name))), s).

(** [fs.readFile(path.join(dir, name), utf8)]. *)
Definition readFile (dir name : string) : M string :=
  λ s, if fault OpReadFile dir name then (Throw (IOError "EIO" dir name), s)
       else match lookup_entry (fs s) dir name with
            | Some n => if isFile n then (Ok (content n), s)
                        else (Throw (IOError "EISDIR" dir name), s)
            | None => (Throw (IOError "ENOENT" dir name), s)
            end.

(** What a write that failed after the file was opened has left of
    [text], from offset [i] on: the bytes written before the failure. *)
Fixpoint torn_text (dir name : string) (i : nat) (text : string) : string :=
  match text with
  | EmptyString => EmptyString
  | String c text' =>
      if fault (OpWritten i) dir name
      then String c (torn_text dir name (S i) text')
      else EmptyString
  end.

(** The entry a file-system operation can open for writing: the
    directory exists and the name is free or names a regular file. *)
Definition writable (t : FileSystem) (dir name : string) : option (gmap string Node) :=
  match t !! dir with
  | Some d =>
      match d !! name with
      | Some n => if isFile n then Some d else None
      | None => Some d
      end
  | None => None
  end.

(** [fs.writeFile(path.join(dir, name), data, utf8)]: [data] must be a
    text ([None] is a value that is none), the directory must exist and
    the entry must not be a directory; the entry then holds [data].  The
    file is opened with truncation before the text is written: a write
    that fails after the file was opened leaves the entry with the bytes
    written so far, possibly none. *)
Definition writeFile (dir name : string) (data : option string) : M unit :=
  λ s, match data with
       | None =>
           (Throw (mkError "TypeError" "The data argument must be of type string"), s)
       | Some text =>
           if fault OpWriteFile dir name
           then match (if fault OpWriteTorn dir name
                       then writable (fs s) dir name else None) with
                | Some d =>
                    (Throw (IOError "EIO" dir name), mkState
                       (<[dir := <[name := mkNode true (Z.of_N (clock (ticks s)))
                                            (torn_text dir name 0 text)]> d]> (fs s))
                       (emitted s) (console s) (ticks s))
                | None => (Throw (IOError "EIO" dir name), s)
                end
           else match fs s !! dir with
                | None => (Throw (IOError "ENOENT" dir name), s)
                | Some d =>
                    match d !! name with
                    | Some n =>
                        if isFile n
                        then (Ok (), mkState
                                (<[dir := <[name := mkNode true (Z.of_N (clock (ticks s))) text]> d]> (fs s))
                                (emitted s) (console s) (ticks s))
                        else (Throw (IOError "EISDIR" dir name), s)
                    | None =>
                        (Ok (), mkState
                           (<[dir := <[name := mkNode true (Z.of_N (clock (ticks s))) text]> d]> (fs s))
                           (emitted s) (console s) (ticks s))
                    end
                end
       end.

(** [fs.readdir(dir)]: the names of the entries. *)
Definition readdir (dir : string) : M (list string) :=
  λ s, if fault OpReaddir dir EmptyString then (Throw (IOError "EIO" dir EmptyString), s)
       else match fs s !! dir with
            | Some d => (Ok (map_to_list d).*1, s)
            | None => (Throw (IOError "ENOENT" dir EmptyString), s)
            end.

(** [fs.stat(path.join(dir, name))]. *)
Definition stat (dir name : string) : M Node :=
  λ s, if fault OpStat dir name then (Throw (IOError "EIO" dir name), s)
       else match lookup_entry (fs s) dir name with
            | Some n => (Ok n, s)
            | None => (Throw (IOError "ENOENT" dir name), s)
            end.

(** [fs.remove(path.join(dir, name))]: the entry is gone afterwards; a
    missing entry is no error. *)
Definition remove (dir name : string) : M unit :=
  λ s, if fault OpRemove dir name then (Throw (IOError "EIO" dir name), s)
       else (Ok (), mkState (alter (delete name) dir (fs s))
                      (emitted s) (console s) (ticks s)).

(** [obfuscateAndWrite(code, config, prefix)]. *)
Definition obfuscateAndWrite (code : string) (config : option Config) (prefix : string)
  : M string :=
  result <- lift (obfuscate code config) ;;
  obf <- lift (normalize result) ;;
  t <- Date_now ;;
  let fname := prefix +:+ pretty t +:+ ".js" in
  writeFile OUTPUT_DIR fname obf ;;
  ret fname.

(** [obfuscateWithOptions({ code, presetConfig, addAntiBypass, password,
    identifierPrefix })]. *)
Definition obfuscateWithOptions (code : string) (presetConfig : option Config)
    (addAntiBypass : bool) (password : option Utf16.JsString) (identifierPrefix : string)
  : M string :=
  let base := Wrapper.wrapped code addAntiBypass password in
  presetConfig' <-
    (if Utf16.truthy password
     then match presetConfig with
          | Some cfg => ret (Some cfg)
          | None => cfg <- lift (call "getDefaultConfig") ;; ret (Some cfg)
          end
     else ret presetConfig) ;;
  obfuscateAndWrite base presetConfig' identifierPrefix.

(** [password || null]. *)
Definition or_null (t : option Utf16.JsString) : option Utf16.JsString :=
  if Utf16.truthy t then t else None.

(** The handler of the [start] event. *)
Definition onStart (data : option StartData) : M unit :=
  try_catch
    (let d := default (mkStart None None None false) data in
     if negb (Wrapper.truthy_text (file d))
     then emit (Error "No file specified.")
     else
       let name := default EmptyString (file d) in
       found <- existsSync UPLOAD_DIR name ;;
       if negb found
       then emit (Error "File not found.")
       else
         emit (Progress "Reading file..." 10) ;;
         code <- readFile UPLOAD_DIR name ;;
         emit (Progress "Selecting preset..." 25) ;;
         cfg <- lift (selectConfig (preset d)) ;;
         emit (Progress "Obfuscating..." 50) ;;
         t <- Date_now ;;
         outName <- obfuscateWithOptions code (Some cfg) (antibypass d)
                      (or_null (password d)) ("enc_" +:+ pretty t +:+ "_") ;;
         emit (Progress "Writing result..." 90) ;;
         emit (Done outName ("/download/" +:+ outName)) ;;
         emit (Progress "Finished!" 100) ;;
         log ("[WEB-OBF] ✔ Finished obfuscation: " +:+ name))
    (λ e,
       errLog ("[WEB-OBF] Obfuscation error: " +:+ error_text e) ;;
       emit (Error (error_text e))).

(** The body of the loop of [cleanupOldFiles] for the entry [f]: errors
    of [fs.stat] and [fs.remove] are caught and ignored. *)
Definition sweep_body (dir : string) (now : N) (cutoff : Z) (f : string) : M unit :=
  try_catch
    (st <- stat dir f ;;
     if isFile st && (Z.of_N now - mtimeMs st >? cutoff)%Z
     then remove dir f ;; log ("[WEB-OBF] Removed old file: " +:+ dir +:+ "/" +:+ f)
     else ret ())
    (λ _, ret ()).

(** [cleanupOldFiles(dir, olderThanDays)]. *)
Definition cleanupOldFiles (dir : string) (olderThanDays : Z) : M unit :=
  try_catch
    (files <- readdir dir ;;
     now <- Date_now ;;
     let cutoff := (olderThanDays * 24 * 60 * 60 * 1000)%Z in
     for_each files (sweep_body dir now cutoff))
    (λ e, errLog ("[WEB-OBF] Cleanup error: " +:+ error_text e)).

End World.

(** *** What is observed of a job and of a sweep *)

(** The progress events before the artifact is announced. *)
Definition milestones : list Event :=
  [Progress "Reading file..." 10; Progress "Selecting preset..." 25;
   Progress "Obfuscating..." 50; Progress "Writing result..." 90].

(** What a job emits when every step succeeds and the artifact is [out]. *)
Definition success_trace (out : string) : list Event :=
  milestones ++ [Done out ("/download/" +:+ out); Progress "Finished!" 100].

(** The percentages of the progress events of a trace, in order. *)
Definition percents (tr : list Event) : list Z :=
  omap (λ e, match e with Progress _ p => Some p | _ => None end) tr.

(** A trace is that of a successful job when it announces an artifact. *)
Definition successful (tr : list Event) : Prop := ∃ out download, Done out download ∈ tr.

(** The age test of the sweep on the entry [n]: a regular file whose
    modification time lies more than [olderThanDays] days before [now]. *)
Definition expired (now : N) (olderThanDays : Z) (n : Node) : bool :=
  isFile n && (Z.of_N now - mtimeMs n >? olderThanDays * 24 * 60 * 60 * 1000)%Z.

Section Observations.
Variable clock : nat → N.
Variable fault : FsOp → string → string → bool.
Variable obfuscate : string → option Config → Result JsValue.

(** The events one [start] request adds to those already sent. *)
Definition job_events (data : option StartData) (s : State) : list Event :=
  drop (length (emitted s)) (emitted (onStart clock fault obfuscate data s).2).

(** The entry [n] named [f] is removed by a sweep at [now]: [fs.stat]
    succeeds on it, it passes the age test and [fs.remove] succeeds. *)
Definition swept (dir : string) (now : N) (olderThanDays : Z) (f : string) (n : Node) : bool :=
  negb (fault OpStat dir f) && expired now olderThanDays n && negb (fault OpRemove dir f).

(** What a sweep at [now] leaves of the entry named [f]. *)
Definition after_sweep (dir : string) (now : N) (olderThanDays : Z) (f : string)
    (entry : option Node) : option Node :=
  match entry with
  | Some n => if swept dir now olderThanDays f n then None else Some n
  | None => None
  end.

(** The directories [t'] are what a write of [text] to the entry [name] of
    [dir] at [now] leaves of [t] when it fails after the file was opened:
    the entry is a regular file with the bytes written by then. *)
Definition torn_write (dir name : string) (now : N) (text : string)
    (t t' : FileSystem) : Prop :=
  fault OpWriteFile dir name = true ∧ fault OpWriteTorn dir name = true ∧
  ∃ d, writable t dir name = Some d ∧
       t' = <[dir := <[name := mkNode true (Z.of_N now) (torn_text fault dir name 0 text)]> d]> t.
End Observations.

End Server.

(* ===================================================================== *)
(** ** A concrete server, to run the model on *)
(* ===================================================================== *)

Module Scenario.
Import Presets Js Server.

(** The clock stands at one instant, late enough for week-old files. *)
Definition clock (n : nat) : N := 1700000000000.

(** The entry [locked.log] of the uploads cannot be removed, and
    [broken.js] cannot be examined. *)
Definition fault (op : FsOp) (dir name : string) : bool :=
  match op with
  | OpRemove => bool_decide (name = "locked.log")
  | OpStat => bool_decide (name = "broken.js")
  | _ => false
  end.

(** An engine that returns a text. *)
Definition obfuscate (code : string) (config : option Config) : Result JsValue :=
  Ok (JsStr ("/*obf*/" +:+ code)).

Definition day : Z := 24 * 60 * 60 * 1000.

(** Uploads of several ages, a sub-directory, and an empty output
    directory. *)
Definition disk : FileSystem :=
  <[UPLOAD_DIR := list_to_map [
      ("hello.js", mkNode true (1700000000000 - 1 * day) "console.log(1)");
      ("old.js", mkNode true (1700000000000 - 8 * day) "var x");
      ("locked.log", mkNode true (1700000000000 - 9 * day) "log");
      ("broken.js", mkNode true (1700000000000 - 9 * day) "var y");
      ("edge.js", mkNode true (1700000000000 - 7 * day) "var z");
      ("archive", mkNode false (1700000000000 - 30 * day) EmptyString) ]]>
  (<[OUTPUT_DIR := ∅]> ∅).

Definition idle : State := mkState disk [] [] 0.

Definition request (preset : option string) : StartData :=
  mkStart (Some "hello.js") preset None false.

End Scenario.

(* ===================================================================== *)
(** ** The names the identifier generators draw *)
(* ===================================================================== *)

Module Generators.

(** The closures that the tags of [Presets.NameGenerator] stand for, as
    functions of the values [Math.random] returns.  The generator of nova
    (the base-36 text of a random fraction) is a floating-point conversion
    and is not modelled. *)

(** The letters of [getArabObfuscationConfig]. *)
Definition arabicChars : list string :=
  [
    "أ"; "ب"; "ت"; "ث"; "ج"; "ح"; "خ"; "د"; "ذ"; "ر"; "ز"; "س";
    "ش"; "ص"; "ض"; "ط"; "ظ"; "ع"; "غ"; "ف"; "ق"; "ك"; "ل"; "م";
    "ن"; "ه"; "و"; "ي"
  ].

(** The kana and letters of [getJapanxArabObfuscationConfig]. *)
Definition japaneseXArabChars : list string :=
  [
    "あ"; "い"; "う"; "え"; "お"; "か"; "き"; "く"; "け"; "こ"; "さ"; "し";
    "す"; "せ"; "そ"; "た"; "ち"; "つ"; "て"; "と"; "な"; "に"; "ぬ"; "ね";
    "の"; "は"; "ひ"; "ふ"; "へ"; "ほ"; "ま"; "み"; "む"; "め"; "も"; "や";
    "ゆ"; "よ"; "أ"; "ب"; "ت"; "ث"; "ج"; "ح"; "خ"; "د"; "ذ"; "ر";
    "ز"; "س"; "ش"; "ص"; "ض"; "ط"; "ظ"; "ع"; "غ"; "ف"; "ق"; "ك";
    "ل"; "م"; "ن"; "ه"; "و"; "ي"; "ら"; "り"; "る"; "れ"; "ろ"; "わ";
    "を"; "ん"
  ].

(** The kana of [getJapanObfuscationConfig]. *)
Definition japaneseChars : list string :=
  [
    "あ"; "い"; "う"; "え"; "お"; "か"; "き"; "く"; "け"; "こ"; "さ"; "し";
    "す"; "せ"; "そ"; "た"; "ち"; "つ"; "て"; "と"; "な"; "に"; "ぬ"; "ね";
    "の"; "は"; "ひ"; "ふ"; "へ"; "ほ"; "ま"; "み"; "む"; "め"; "も"; "や";
    "ゆ"; "よ"; "ら"; "り"; "る"; "れ"; "ろ"; "わ"; "を"; "ん"
  ].

(** The letters of [getNebulaObfuscationConfig], one text per character of
    its [chars]. *)
Definition nebulaChars : list string :=
  (λ c, String c EmptyString) <$>
    String.list_ascii_of_string "abcdefghijklmnopqrstuvwxyzABCDEFGHIJKLMNOPQRSTUVWXYZ".

Section Random.
(** [draw k n] is the value of [Math.floor(Math.random() * n)] at the k-th
    call of [Math.random]. *)
Variable draw : nat → nat → nat.

(** [chars[Math.floor(Math.random() * chars.length)]] at the k-th call;
    an index outside the array reads [undefined], which [+=] appends as
    the text undefined. *)
Definition pick (chars : list string) (k : nat) : string :=
  default "undefined" (chars !! draw k (length chars)).

(** [for (let i = 0; i < n; i++) name += pick]: the name after [n] more
    rounds, the next call of [Math.random] being the k-th. *)
Fixpoint draw_name (chars : list string) (name : string) (n k : nat) : string :=
  match n with
  | 0 => name
  | S n' => draw_name chars (name +:+ pick chars k) n' (S k)
  end.

(** [generateNebulaName()], its first call of [Math.random] being the
    k-th. *)
Definition generateNebulaName (k : nat) : string :=
  let prefix := "NX" in
  let randomPart := draw_name nebulaChars EmptyString 4 k in
  prefix +:+ randomPart.

(** The three generators over an alphabet: a length of three to six is
    drawn first. *)
Definition generateArabicName (k : nat) : string :=
  let length := draw k 4 + 3 in
  draw_name arabicChars EmptyString length (S k).

Definition generateJapaneseXArabName (k : nat) : string :=
  let length := draw k 4 + 3 in
  draw_name japaneseXArabChars EmptyString length (S k).

Definition generateJapaneseName (k : nat) : string :=
  let length := draw k 4 + 3 in
  draw_name japaneseChars EmptyString length (S k).

End Random.

(** The texts of a list, one after the other. *)
Fixpoint join (cs : list string) : string :=
  match cs with
  | [] => EmptyString
  | c :: cs' => c +:+ join cs'
  end.

End Generators.

(* ===================================================================== *)
(** ** The stored name of an upload, and the download route *)
(* ===================================================================== *)

Module Upload.
Import Text.

(** Every character of a text passes the test. *)
Fixpoint all_chars (P : ascii → bool) (s : string) : bool :=
  match s with
  | EmptyString => true
  | String c s' => P c && all_chars P s'
  end.

Definition code_in (lo hi : nat) (c : ascii) : bool :=
  (lo <=? nat_of_ascii c)%nat && (nat_of_ascii c <=? hi)%nat.

Definition is_slash (c : ascii) : bool := code_in 47 47 c.

Definition is_digit (c : ascii) : bool := code_in 48 57 c.

(** The class [[a-zA-Z0-9_\-\.]] of the second [replace]. *)
Definition is_safe (c : ascii) : bool :=
  code_in 97 122 c || code_in 65 90 c || code_in 48 57 c
  || code_in 95 95 c || code_in 45 45 c || code_in 46 46 c.

(** [path.basename(p)] of POSIX: the last component of the path that is
    not empty; [comp] is the last such component read so far and [cur]
    the component being read. *)
Fixpoint basename_go (comp cur s : string) : string :=
  match s with
  | EmptyString => if decide (cur = EmptyString) then comp else cur
  | String c s' =>
      if is_slash c
      then basename_go (if decide (cur = EmptyString) then comp else cur) EmptyString s'
      else basename_go comp (cur +:+ String c EmptyString) s'
  end.

Definition basename (p : string) : string := basename_go EmptyString EmptyString p.

(** A text by the codes of its bytes. *)
Definition of_codes (l : list nat) : string :=
  String.string_of_list_ascii (ascii_of_nat <$> l).

(** The white space of [\s] within ASCII: tab, line feed, vertical tab,
    form feed, carriage return and space. *)
Definition ascii_space (c : ascii) : bool := code_in 9 13 c || code_in 32 32 c.

(** The white space of [\s] outside ASCII, by its UTF-8 bytes: U+00A0,
    U+1680, U+2000 to U+200A, U+2028, U+2029, U+202F, U+205F, U+3000 and
    U+FEFF. *)
Definition unicode_spaces : list string :=
  of_codes <$>
    [ [194; 160]; [225; 154; 128];
      [226; 128; 128]; [226; 128; 129]; [226; 128; 130]; [226; 128; 131];
      [226; 128; 132]; [226; 128; 133]; [226; 128; 134]; [226; 128; 135];
      [226; 128; 136]; [226; 128; 137]; [226; 128; 138];
      [226; 128; 168]; [226; 128; 169]; [226; 128; 175];
      [226; 129; 159]; [227; 128; 128]; [239; 187; 191] ].

(** The number of bytes of the white-space character a text begins with,
    if it begins with one. *)
Definition space_at (s : string) : option nat :=
  match s with
  | EmptyString => None
  | String c _ =>
      if ascii_space c then Some 1
      else match list_find (λ p, starts_with p s = true) unicode_spaces with
           | Some (_, p) => Some (String.length p)
           | None => None
           end
  end.

(** [s.replace(/\s+/g, _)]: every maximal run of white space becomes one
    underscore.  [skip] counts the bytes left of a white-space character
    already seen, [in_run] tells that the byte before belonged to a run. *)
Fixpoint replace_spaces (skip : nat) (in_run : bool) (s : string) : string :=
  match s with
  | EmptyString => EmptyString
  | String c s' =>
      match skip with
      | S k => replace_spaces k in_run s'
      | 0 =>
          match space_at s with
          | Some n => (if in_run then EmptyString else "_") +:+ replace_spaces (n - 1) true s'
          | None => String c (replace_spaces 0 false s')
          end
      end
  end.

(** [s.replace(/[^a-zA-Z0-9_\-\.]/g, EmptyString)]. *)
Fixpoint keep_safe (s : string) : string :=
  match s with
  | EmptyString => EmptyString
  | String c s' => if is_safe c then String c (keep_safe s') else keep_safe s'
  end.

(** [safe] of the [filename] callback of the storage:
    [path.basename(originalname || file)] with white space replaced and
    the other characters outside the class removed. *)
Definition safe (originalname : option string) : string :=
  let base := basename (if Wrapper.truthy_text originalname
                        then default EmptyString originalname else "file") in
  keep_safe (replace_spaces 0 false base).

(** The name the storage gives the upload at the instant [now]. *)
Definition filename (now : N) (originalname : option string) : string :=
  pretty now +:+ "_" +:+ safe originalname.

(** What a route answers. *)
Inductive Response :=
| Send (status : nat) (body : string)
| Download (dir name : string).

(** [GET /download/:name]. *)
Definition downloadRoute (name : string) (s : Server.State) : Response :=
  if negb (bool_decide (is_Some (Server.lookup_entry (Server.fs s) Server.OUTPUT_DIR name)))
  then Send 404 "File not found"
  else Download Server.OUTPUT_DIR name.

End Upload.

(* ===================================================================== *)
(** ** Further observations and a second concrete server *)
(* ===================================================================== *)

Module Observed.
Import Upload.

(** The characters [Buffer] writes in base64: letters, digits, plus,
    slash and the padding sign. *)
Definition is_base64 (c : ascii) : bool :=
  code_in 65 90 c || code_in 97 122 c || code_in 48 57 c
  || code_in 43 43 c || code_in 47 47 c || code_in 61 61 c.

(** The single quote that delimits the literal of the template. *)
Definition quote : ascii := ascii_of_nat 39.

Definition is_letter (c : ascii) : bool := code_in 65 90 c || code_in 97 122 c.

(** The events that end a job. *)
Definition is_terminal (e : Server.Event) : bool :=
  match e with
  | Server.Progress _ _ => false
  | Server.Done _ _ | Server.Error _ => true
  end.

(** The name of the artifact of a job whose two readings of the clock are
    [t1] (for the prefix, in the handler) and [t2] (in
    [obfuscateAndWrite]). *)
Definition artifact_name (t1 t2 : N) : string :=
  ("enc_" +:+ pretty t1 +:+ "_") +:+ pretty t2 +:+ ".js".

End Observed.

Module Trials.
Import Presets Js Server.

(** An engine that rejects every input. *)
Definition failing_engine (code : string) (config : option Config) : Result JsValue :=
  Throw (mkError "Error" "Unexpected token").

(** A source of draws: the k-th draw below [n]. *)
Definition draw (k n : nat) : nat := (7 * k + 3) mod n.

(** A clock that advances by one millisecond at each reading. *)
Definition ticking (n : nat) : N := 1700000000000 + N.of_nat n.

(** [buffer.toString(utf8)] on buffers of ASCII bytes, which it decodes
    to the text of the same bytes. *)
Definition toString_utf8 (b : string) : string := b.

(** Spliced code that comes to its end. *)
Definition completes (code : string) : bool := true.

(** A file system whose calls all succeed. *)
Definition no_fault (op : FsOp) (dir name : string) : bool := false.

End Trials.

(* ===================================================================== *)
(** * Properties *)
(* ===================================================================== *)

Import Text Presets Wrapper Gate Js Server.

(** A decidable statement about concrete data, settled by evaluation. *)
Ltac by_computation := apply (bool_decide_unpack _); vm_compute; exact I.

(** ** Preset resolution *)

(** A name outside the four compared ones reaches the call of
    [getDefaultConfig], a name the file does not declare. *)
Lemma selectConfig_fallback (preset : option string) :
  presetKey preset ∉ dispatched →
  selectConfig preset = Throw (ReferenceError "getDefaultConfig").
Proof.
  intros Hn. unfold dispatched in Hn.
  rewrite !not_elem_of_cons in Hn. destruct Hn as (? & ? & ? & ? & _).
  unfold selectConfig. rewrite !decide_False by done.
  reflexivity.
Qed.

(** The four compared names give their own configuration, whatever the
    case of the letters, and each holds the target node. *)
Lemma selectConfig_dispatched (preset : option string) (cfg : Config) :
  selectConfig preset = Ok cfg →
  presetKey preset ∈ dispatched ∧ cfg !! "target" = Some (VStr "node") ∧
  cfg = match presetKey preset with
        | "nova" => getNovaObfuscationConfig
        | "nebula" => getNebulaObfuscationConfig
        | "arab" => getArabObfuscationConfig
        | _ => getJapanObfuscationConfig
        end.
Proof.
  unfold selectConfig, dispatched.
  repeat case_decide;
    match goal with
    | H : presetKey _ = _ |- _ => rewrite H
    | _ => idtac
    end;
    intros [= <-]; (split; [set_solver | split; reflexivity]).
Qed.

(** The lock policy of the nova configuration, as a map. *)
Lemma nova_lock :
  getNovaObfuscationConfig !! "lock" =
  Some (VLock (<["antiDebug" := true]> (<["integrity" := true]>
                 (<["selfDefending" := true]> ∅)))).
Proof. reflexivity. Qed.

(** C2 (as stated, refuted): the configuration of the name nova does not
    enable all four guards of a lock policy; tamper protection is not among
    its toggles. *)
Lemma nova_lock_is_not_full :
  ¬ (∀ cfg, selectConfig (Some "nova") = Ok cfg →
            Forall (λ g, enables cfg g = true) lock_guards).
Proof.
  intros H. specialize (H getNovaObfuscationConfig eq_refl).
  rewrite Forall_forall in H.
  specialize (H "tamperProtection"). unfold lock_guards in H.
  assert (enables getNovaObfuscationConfig "tamperProtection" = false) as E
    by (vm_compute; reflexivity).
  rewrite H in E; [done | set_solver].
Qed.

(** C2 (amended): the configuration returned for the name nova holds a lock
    policy that enables exactly three guards: anti-debug, integrity check
    and self-defence. *)
Theorem nova_lock_enables_three_guards :
  ∃ cfg, selectConfig (Some "nova") = Ok cfg ∧
         ∀ g, enables cfg g = true ↔ g ∈ ["antiDebug"; "integrity"; "selfDefending"].
Proof.
  exists getNovaObfuscationConfig. split; [reflexivity |].
  intros g. unfold enables. rewrite nova_lock, bool_decide_eq_true.
  rewrite !elem_of_cons, elem_of_nil.
  destruct (decide (g = "antiDebug")) as [-> | ?]; [by intuition |].
  rewrite lookup_insert_ne by done.
  destruct (decide (g = "integrity")) as [-> | ?]; [by intuition |].
  rewrite lookup_insert_ne by done.
  destruct (decide (g = "selfDefending")) as [-> | ?]; [by intuition |].
  rewrite lookup_insert_ne, lookup_empty by done.
  by intuition.
Qed.

(** C7 (the code at the failing inputs): the baseline name and the name of
    the mixed preset, in any spelling, are not among the compared names;
    resolution calls [getDefaultConfig], which is not declared, and raises
    instead of returning the preset's own configuration. *)
Theorem baseline_and_mixed_names_raise :
  Forall (λ name, selectConfig (Some name) = Throw (ReferenceError "getDefaultConfig")
                  ∧ selectConfig (Some name) ≠ Ok getJapanxArabObfuscationConfig
                  ∧ selectConfig (Some name) ≠ Ok getUltraSafeConfig)
    ["ultra-safe"; "japanxarab"; "japan×arab"; "japan-arab"; "JapanXArab"].
Proof.
  repeat constructor;
    try (apply selectConfig_fallback; by_computation);
    rewrite selectConfig_fallback by by_computation; done.
Qed.

(** ** Normalisation of the engine's result *)

Lemma normalize_string (s : string) : normalize (JsStr s) = Ok (Some s).
Proof. reflexivity. Qed.

Lemma normalize_code (o : JsObject) (c : string) :
  obj_code o = Some c → normalize (JsObj o) = Ok (Some c).
Proof. intros H. unfold normalize. simpl. by rewrite H. Qed.

Lemma normalize_toString (o : JsObject) (r : Result (option string)) :
  obj_code o = None → obj_toString o = Some r → normalize (JsObj o) = r.
Proof. intros H1 H2. unfold normalize. simpl. by rewrite H1, H2. Qed.

Lemma normalize_json (o : JsObject) :
  obj_code o = None → obj_toString o = None → normalize (JsObj o) = obj_json o.
Proof. intros H1 H2. unfold normalize. simpl. by rewrite H1, H2. Qed.

(** A falsy result that is not a text skips the two middle branches. *)
Lemma normalize_falsy (v : JsValue) :
  truthy v = false → (∀ s, v ≠ JsStr s) → normalize v = JSON_stringify v.
Proof.
  intros Hf Hs. unfold normalize. rewrite Hf.
  destruct v; try reflexivity. by destruct (Hs s).
Qed.

(** C8 (as stated, refuted): [NaN] and the big integer zero expose a
    callable text conversion, which gives the texts NaN and 0, but they
    are falsy: the code serialises them, which gives the text null for
    [NaN] and throws for the big integer, where the stated order uses the
    conversion. *)
Lemma normalize_serialises_NaN_and_big_zero :
  (toString_text (JsNum NaN) = Some (Ok (Some "NaN")) ∧
   normalize (JsNum NaN) = Ok (Some "null") ∧
   normalize (JsNum NaN) ≠ normalize_spec (JsNum NaN)) ∧
  (toString_text (JsBigInt 0) = Some (Ok (Some "0")) ∧
   normalize (JsBigInt 0)
   = Throw (mkError "TypeError" "Do not know how to serialize a BigInt") ∧
   normalize (JsBigInt 0) ≠ normalize_spec (JsBigInt 0)).
Proof. repeat split; done. Qed.

(** C8 (amended): the code takes a text as it is; else, of a truthy
    result, the text code field; else, of a truthy result, the outcome of
    its callable text conversion; else the outcome of the serialisation,
    which may be no text or a throw.  This is the stated priority order
    (without the tests of truthiness) on every result but two: [NaN] and
    the big integer zero. *)
Theorem normalize_follows_priority_order (result : JsValue) :
  normalize result =
    match result with
    | JsStr s => Ok (Some s)
    | _ =>
        if truthy result
        then match code_text result, toString_text result with
             | Some c, _ => Ok (Some c)
             | None, Some r => r
             | None, None => JSON_stringify result
             end
        else JSON_stringify result
    end ∧
  (normalize result = normalize_spec result ↔
   result ≠ JsNum NaN ∧ result ≠ JsBigInt 0).
Proof.
  split.
  - unfold normalize. destruct result; try reflexivity; destruct (truthy _); reflexivity.
  - destruct result as [| |b|n|z|s|o].
    + by split.
    + by split.
    + split; [done |]. by destruct b.
    + destruct n as [|neg| |z].
      * split; [done | by intros [? _]].
      * by split.
      * by split.
      * split; [done |]. intros _. unfold normalize, normalize_spec. simpl.
        by destruct (Z.eqb z 0).
    + unfold normalize, normalize_spec. simpl.
      destruct (Z.eqb_spec z 0) as [-> | Hz]; simpl.
      * split; [done | by intros [_ ?]].
      * split; [intros _; split; [done | congruence] | done].
    + by split.
    + by split.
Qed.

(** ** The code wrapper *)

Lemma truthy_text_Some (t : string) :
  t ≠ EmptyString → truthy_text (Some t) = true.
Proof. intros H. unfold truthy_text. by rewrite bool_decide_eq_false_2. Qed.

(** With a password the wrapped text is the template around the base. *)
Lemma wrapped_with_password (code : string) (pw : Utf16.JsString) (addAntiBypass : bool) :
  pw ≠ [] →
  wrapped code addAntiBypass (Some pw) =
  createPasswordTemplate (encoded pw)
    (if addAntiBypass then TByypas +:+ nl +:+ code else code).
Proof. intros H. unfold wrapped. by destruct pw. Qed.

Lemma guard_first_in_template (e c : string) :
  indexOf TByypas (createPasswordTemplate e c) = Some 0.
Proof. vm_compute. reflexivity. Qed.

Lemma gate_first_in_template (e c : string) :
  indexOf gate_open (createPasswordTemplate e c) = Some gate_start.
Proof. vm_compute. reflexivity. Qed.

Lemma gate_at_gate_start (e c : string) :
  occurs_at gate_start (gate_open +:+ e +:+ gate_check) (createPasswordTemplate e c) = true.
Proof.
  unfold createPasswordTemplate, gate_start.
  replace (String.length TByypas + 1) with (String.length (TByypas +:+ nl))
    by (rewrite length_append; reflexivity).
  replace (TByypas +:+ nl +:+ gate_open +:+ e +:+ gate_check +:+ c +:+ gate_close)
    with ((TByypas +:+ nl) +:+ (gate_open +:+ e +:+ gate_check) +:+ (c +:+ gate_close))
    by (by rewrite !append_assoc).
  apply occurs_at_app.
Qed.

Lemma payload_at_payload_start (e c : string) :
  occurs_at (payload_start e) c (createPasswordTemplate e c) = true.
Proof.
  unfold createPasswordTemplate, payload_start, gate_start.
  replace (String.length TByypas + 1 + String.length gate_open + String.length e
           + String.length gate_check)
    with (String.length (TByypas +:+ nl +:+ gate_open +:+ e +:+ gate_check))
    by (rewrite !length_append; simpl; lia).
  replace (TByypas +:+ nl +:+ gate_open +:+ e +:+ gate_check +:+ c +:+ gate_close)
    with ((TByypas +:+ nl +:+ gate_open +:+ e +:+ gate_check) +:+ c +:+ gate_close)
    by (by rewrite !append_assoc).
  apply occurs_at_app.
Qed.

Lemma occurs_at_prefix (n : nat) (p r s : string) :
  occurs_at n (p +:+ r) s = true → occurs_at n p s = true.
Proof.
  intros H. destruct (occurs_at_inv _ _ _ H) as (a & t & -> & <-).
  rewrite append_assoc. apply occurs_at_app.
Qed.

Lemma gate_open_ends : ∃ pre, gate_open = pre +:+ "Buffer.from('".
Proof.
  exists (lines ["(async () => {"; "const readline = require('readline');";
                 "const chalk = require('chalk');"; "const passwordBuffer = "]).
  reflexivity.
Qed.

Lemma gate_check_begins : ∃ post, gate_check = "', 'base64')" +:+ post.
Proof.
  destruct (starts_with_inv "', 'base64')" gate_check) as [post E]; [reflexivity |].
  by exists post.
Qed.

Lemma literal_in_template (e c : string) :
  includes (password_literal e) (createPasswordTemplate e c) = true.
Proof.
  destruct gate_open_ends as [pre Ho], gate_check_begins as [post Hc].
  unfold createPasswordTemplate, password_literal. rewrite Ho, Hc.
  replace (TByypas +:+ nl +:+ (pre +:+ "Buffer.from('") +:+ e +:+
           ("', 'base64')" +:+ post) +:+ c +:+ gate_close)
    with ((TByypas +:+ nl +:+ pre) +:+ ("Buffer.from('" +:+ e +:+ "', 'base64')")
          +:+ (post +:+ c +:+ gate_close))
    by (by rewrite !append_assoc).
  apply includes_app.
Qed.

(** The template is the guard, a line feed and the text of the gate's
    program. *)
Lemma print_gate (e c : string) :
  print_async (gate_body e c) = gate_open +:+ e +:+ gate_check +:+ c +:+ gate_close.
Proof. vm_compute. reflexivity. Qed.

(** What [toString(base64)] writes is an encoding. *)
Lemma is_encoding_encode (b : string) : Base64.is_encoding (Base64.encode b) = true.
Proof. unfold Base64.is_encoding. by rewrite Base64.decode_encode, bool_decide_eq_true. Qed.

(** One statement of a run at a time: the statement at the head is
    evaluated in its environment, which is known by then. *)
Ltac exec_head :=
  match goal with
  | |- context [exec ?u ?c ?env ?s ?p] =>
      let r := eval cbv -[Base64.decode Base64.encode Base64.is_encoding String.eqb] in
                 (exec u c env s p) in
      change (exec u c env s p) with r; cbv beta iota
  end.

(** The run of the gate's program before a line is entered: the prompt. *)
Lemma run_gate_idle (toString_utf8 : string → string) (completes : string → bool)
    (b c : string) :
  trace <$> run_async toString_utf8 completes (gate_body (Base64.encode b) c) []
  = Some [Clear; Log "🔑 MASUKKAN PASSWORD:"; Ask "> "].
Proof.
  unfold run_async, gate_body. cbn [exec_all].
  do 3 exec_head. rewrite is_encoding_encode, Base64.decode_encode.
  do 5 exec_head. reflexivity.
Qed.

(** The run of the gate's program when a line is entered: the prompt,
    then the comparison of the line with the decoded literal. *)
Lemma run_gate_body (toString_utf8 : string → string) (completes : string → bool)
    (b c input : string) (rest : list string) :
  run_async toString_utf8 completes (gate_body (Base64.encode b) c) (input :: rest) =
  Some (if String.eqb input (toString_utf8 b)
        then mkProcess
               ([Clear; Log "🔑 MASUKKAN PASSWORD:"; Ask "> "; Run c]
                ++ (if completes c then [Close] else []))
               [] None
        else mkProcess
               [Clear; Log "🔑 MASUKKAN PASSWORD:"; Ask "> "; Log "❌ PASSWORD SALAH"; Exit 1]
               [] (Some 1%Z)).
Proof.
  unfold run_async, gate_body. cbn [exec_all].
  do 3 exec_head. rewrite is_encoding_encode, Base64.decode_encode.
  do 5 exec_head.
  cbn [answer waiting trace exited exec_all].
  exec_head.
  destruct (String.eqb input (toString_utf8 b)); cbv beta iota; [| reflexivity].
  exec_head. destruct (completes c); cbv beta iota; [| reflexivity].
  exec_head. by destruct rest.
Qed.

(** C4: when a text is wrapped with the anti-bypass flag and a password, the
    guard stands at the head of the output and the password gate begins
    after it (each at its first occurrence), and the source text stands
    unchanged inside the output. *)
Theorem guard_before_gate_and_code_verbatim (code : string) (pw : Utf16.JsString) :
  pw ≠ [] →
  let out := wrapped code true (Some pw) in
  indexOf TByypas out = Some 0 ∧
  indexOf gate_open out = Some gate_start ∧
  String.length TByypas ≤ gate_start ∧
  occurs_at gate_start (gate_open +:+ encoded pw +:+ gate_check) out = true ∧
  occurs_at (payload_start (encoded pw) + String.length (TByypas +:+ nl)) code out
  = true ∧
  includes code out = true.
Proof.
  intros Hpw out. subst out. rewrite wrapped_with_password by done.
  assert (occurs_at (payload_start (encoded pw) + String.length (TByypas +:+ nl)) code
            (createPasswordTemplate (encoded pw) (TByypas +:+ nl +:+ code)) = true) as Hc.
  { pose proof (payload_at_payload_start (encoded pw) (TByypas +:+ nl +:+ code)) as H.
    destruct (occurs_at_inv _ _ _ H) as (a & t & E & <-). rewrite E.
    replace (a +:+ (TByypas +:+ nl +:+ code) +:+ t)
      with ((a +:+ TByypas +:+ nl) +:+ code +:+ t) by (by rewrite !append_assoc).
    replace (String.length a + String.length (TByypas +:+ nl))
      with (String.length (a +:+ TByypas +:+ nl)) by (by rewrite !length_append).
    apply occurs_at_app. }
  split; [apply guard_first_in_template |].
  split; [apply gate_first_in_template |].
  split; [unfold gate_start; lia |].
  split; [apply gate_at_gate_start |].
  split; [exact Hc |].
  apply includes_iff. eauto.
Qed.

Lemma guard_before_gate_and_code_verbatim_witness :
  let out := wrapped "console.log(1)" true (Some (Utf16.of_ascii "x")) in
  indexOf TByypas out = Some 0 ∧
  indexOf gate_open out = Some 1004 ∧
  includes "console.log(1)" out = true.
Proof.
  destruct (guard_before_gate_and_code_verbatim "console.log(1)" (Utf16.of_ascii "x"))
    as (H1 & H2 & _ & _ & _ & H6); [discriminate |].
  split; [exact H1 |]. split; [exact H2 | exact H6].
Defined.



(** C10: with a password the wrapped text holds the guard even when the
    anti-bypass flag is off (the template begins with it); with the flag on
    as well, the guard stands twice: at the head, before the gate, and at
    the head of the wrapped code inside the gate, followed by the source. *)
Theorem password_template_carries_guard (code : string) (pw : Utf16.JsString) :
  pw ≠ [] →
  (occurs_at 0 TByypas (wrapped code false (Some pw)) = true ∧
   includes TByypas (wrapped code false (Some pw)) = true) ∧
  let out := wrapped code true (Some pw) in
  let inner := payload_start (encoded pw) in
  occurs_at 0 TByypas out = true ∧
  String.length TByypas ≤ gate_start ∧
  gate_start + String.length gate_open ≤ inner ∧
  occurs_at inner TByypas out = true ∧
  occurs_at inner (TByypas +:+ nl +:+ code) out = true ∧
  out = TByypas +:+ nl +:+ gate_open +:+ encoded pw +:+ gate_check +:+
        (TByypas +:+ nl +:+ code) +:+ gate_close.
Proof.
  intros Hpw. rewrite !wrapped_with_password by done.
  assert (∀ e c, occurs_at 0 TByypas (createPasswordTemplate e c) = true) as Hhead.
  { intros e c. unfold createPasswordTemplate. apply starts_with_app. }
  split.
  - split; [exact (Hhead (encoded pw) code) |].
    apply includes_iff. exists 0. exact (Hhead (encoded pw) code).
  - cbv zeta.
    split; [exact (Hhead (encoded pw) (TByypas +:+ nl +:+ code)) |].
    split; [unfold gate_start; lia |].
    split; [unfold payload_start; lia |].
    split; [| split; [apply payload_at_payload_start | reflexivity]].
    eapply occurs_at_prefix, payload_at_payload_start.
Qed.

Lemma password_template_carries_guard_witness :
  includes TByypas (wrapped "main()" false (Some (Utf16.of_ascii "hunter2"))) = true ∧
  occurs_at 0 TByypas (wrapped "main()" true (Some (Utf16.of_ascii "hunter2"))) = true ∧
  occurs_at (payload_start "aHVudGVyMg==") TByypas (wrapped "main()" true (Some (Utf16.of_ascii "hunter2"))) = true.
Proof.
  destruct (password_template_carries_guard "main()" (Utf16.of_ascii "hunter2"))
    as ((_ & H1) & H2 & _ & _ & H3 & _); [discriminate |].
  split; [exact H1 |]. split; [exact H2 | exact H3].
Defined.

(** ** The job of a start request *)

Local Open Scope server_scope.

Lemma lookup_entry_remove (t : FileSystem) (dir f d g : string) :
  lookup_entry (alter (delete f) dir t) d g =
  if decide (d = dir ∧ g = f) then None else lookup_entry t d g.
Proof.
  unfold lookup_entry. rewrite lookup_alter.
  destruct (decide (dir = d)) as [<- | Hd].
  - destruct (t !! dir) as [m|]; simpl.
    + rewrite lookup_delete.
      destruct (decide (f = g)) as [<- | Hg].
      * by rewrite decide_True.
      * rewrite decide_False; [done | intros [_ ->]; done].
    + by destruct (decide _).
  - rewrite decide_False; [done | intros [-> _]; done].
Qed.

Lemma readdir_names (d : gmap string Node) (f : string) :
  f ∈ (map_to_list d).*1 ↔ is_Some (d !! f).
Proof.
  rewrite list_elem_of_fmap. split.
  - intros ([g n] & -> & Hin). apply elem_of_map_to_list in Hin. simpl. eauto.
  - intros [n Hn]. exists (f, n). split; [done |]. by apply elem_of_map_to_list.
Qed.

Section Jobs.
Variable clock : nat → N.
Variable fault : FsOp → string → string → bool.
Variable obfuscate : string → option Config → Result JsValue.

Lemma readFile_run (dir name : string) (s : State) (r : Result string) (s' : State) :
  readFile fault dir name s = (r, s') → s' = s.
Proof.
  unfold readFile.
  destruct (fault OpReadFile dir name); [by intros [= <- <-] |].
  destruct (lookup_entry (fs s) dir name) as [n|]; [| by intros [= <- <-]].
  destruct (isFile n); by intros [= <- <-].
Qed.

Lemma readFile_ok (dir name : string) (s : State) (n : Node) :
  fault OpReadFile dir name = false →
  lookup_entry (fs s) dir name = Some n → isFile n = true →
  readFile fault dir name s = (Ok (content n), s).
Proof. intros Hf Hl Hn. unfold readFile. by rewrite Hf, Hl, Hn. Qed.

(** A write stores the text under the name and touches no other entry,
    or it raises; it then leaves the directories as they were or, when it
    fails after the file was opened, the entry with what was written. *)
Lemma writeFile_run (dir name : string) (data : option string) (s : State)
    (r : Result unit) (s' : State) :
  writeFile clock fault dir name data s = (r, s') →
  emitted s' = emitted s ∧ console s' = console s ∧ ticks s' = ticks s ∧
  match r with
  | Ok _ =>
      (∃ text, data = Some text ∧
         lookup_entry (fs s') dir name
         = Some (mkNode true (Z.of_N (clock (ticks s))) text)) ∧
      ∀ d n, (d, n) ≠ (dir, name) → lookup_entry (fs s') d n = lookup_entry (fs s) d n
  | Throw _ =>
      fs s' = fs s ∨
      ∃ text, data = Some text ∧
              torn_write fault dir name (clock (ticks s)) text (fs s) (fs s')
  end.
Proof.
  unfold writeFile.
  destruct data as [text|]; [| intros [= <- <-]; by repeat split; try left].
  destruct (fault OpWriteFile dir name) eqn:Hf.
  { destruct (fault OpWriteTorn dir name) eqn:Ht; [| intros [= <- <-]; by repeat split; try left].
    destruct (writable (fs s) dir name) as [d|] eqn:Hw;
      intros [= <- <-]; cbn [fs emitted console ticks];
      (split; [done |]); (split; [done |]); (split; [done |]); [| by left].
    right. exists text. split; [done |]. unfold torn_write. eauto. }
  destruct (fs s !! dir) as [d|] eqn:Hd; [| intros [= <- <-]; by repeat split; try left].
  assert (∀ t, let t' := <[dir := <[name := mkNode true (Z.of_N (clock (ticks s))) text]> d]> t in
     lookup_entry t' dir name = Some (mkNode true (Z.of_N (clock (ticks s))) text) ∧
     ∀ d0 n, (d0, n) ≠ (dir, name) → t !! dir = Some d →
             lookup_entry t' d0 n = lookup_entry t d0 n) as Hins.
  { intros t t'. subst t'. unfold lookup_entry. split.
    - rewrite lookup_insert_eq. simpl. by rewrite lookup_insert_eq.
    - intros d0 n Hne Ht. destruct (decide (d0 = dir)) as [-> | Hd0].
      + rewrite lookup_insert_eq, Ht. simpl. rewrite lookup_insert_ne; [done | congruence].
      + by rewrite lookup_insert_ne. }
  destruct (d !! name) as [n|] eqn:Hn.
  - destruct (isFile n); intros [= <- <-]; simpl; [| by repeat split; try left].
    repeat split; try done; [eexists; split; [done | apply Hins] |].
    intros. by apply Hins.
  - intros [= <- <-]; simpl.
    repeat split; try done; [eexists; split; [done | apply Hins] |].
    intros. by apply Hins.
Qed.

(** The engine call and the write emit nothing; on success the artifact
    is in the output directory and holds the normalised result; on
    failure the directories are as they were, unless the write was torn. *)
Lemma obfuscateAndWrite_run (code : string) (cfg : option Config) (prefix : string)
    (s : State) (r : Result string) (s' : State) :
  obfuscateAndWrite clock fault obfuscate code cfg prefix s = (r, s') →
  emitted s' = emitted s ∧ console s' = console s ∧
  match r with
  | Ok out =>
      is_Some (lookup_entry (fs s') OUTPUT_DIR out) ∧
      ∃ result, obfuscate code cfg = Ok result ∧
        Ok (content <$> lookup_entry (fs s') OUTPUT_DIR out) = normalize result
  | Throw _ =>
      fs s' = fs s ∨
      ∃ result text,
        obfuscate code cfg = Ok result ∧ normalize result = Ok (Some text) ∧
        torn_write fault OUTPUT_DIR (prefix +:+ pretty (clock (ticks s)) +:+ ".js")
          (clock (S (ticks s))) text (fs s) (fs s')
  end.
Proof.
  unfold obfuscateAndWrite, bind, lift.
  destruct (obfuscate code cfg) as [result | e]; [| intros [= <- <-]; by repeat split; try left].
  destruct (normalize result) as [obf | e] eqn:Hnorm;
    [| intros [= <- <-]; by repeat split; try left].
  cbv [Date_now].
  match goal with
  | |- context [writeFile _ _ ?d ?n ?x ?st] =>
      destruct (writeFile clock fault d n x st) as [[[] | e] s1] eqn:Hw;
      apply writeFile_run in Hw; simpl in Hw; destruct Hw as (He & Hc & _ & Hw)
  end.
  - intros [= <- <-]. unfold ret. simpl.
    destruct Hw as [(text & Hx & Hl) _].
    split; [done |]. split; [done |]. split; [rewrite Hl; eauto |].
    exists result. split; [done |]. by rewrite Hl, Hnorm, Hx.
  - intros [= <- <-]. split; [done |]. split; [done |].
    destruct Hw as [Hw | (text & -> & Hw)]; [by left |].
    right. by exists result, text.
Qed.

Lemma obfuscateWithOptions_run (code : string) (cfg : Config) (ab : bool)
    (pw : option Utf16.JsString) (prefix : string) (s : State) (r : Result string)
    (s' : State) :
  obfuscateWithOptions clock fault obfuscate code (Some cfg) ab pw prefix s = (r, s') →
  emitted s' = emitted s ∧ console s' = console s ∧
  match r with
  | Ok out => is_Some (lookup_entry (fs s') OUTPUT_DIR out)
  | Throw _ =>
      fs s' = fs s ∨
      ∃ text, torn_write fault OUTPUT_DIR (prefix +:+ pretty (clock (ticks s)) +:+ ".js")
                (clock (S (ticks s))) text (fs s) (fs s')
  end.
Proof.
  unfold obfuscateWithOptions.
  assert ((if Utf16.truthy pw then ret (Some cfg) else ret (Some cfg)) = ret (Some cfg)) as ->
    by (by destruct (Utf16.truthy pw)).
  unfold bind at 1. unfold ret at 1.
  intros H. apply obfuscateAndWrite_run in H. destruct H as (He & Hc & H).
  split; [done |]. split; [done |]. destruct r; [apply H |].
  destruct H as [H | (result & text & _ & _ & H)]; [by left | right; eauto].
Qed.

(** Every run of the handler returns, and what it emits is either a
    prefix of at most three milestones closed by one error event, with the
    directories unchanged unless the write of the artifact was torn, or
    the whole trace of a success, with the artifact written. *)
Lemma onStart_run (data : option StartData) (s : State) :
  ∃ s' tr, onStart clock fault obfuscate data s = (Ok (), s') ∧
    emitted s' = emitted s ++ tr ∧
    ((∃ k m, k ≤ 3 ∧ tr = take k milestones ++ [Error m] ∧
             (fs s' = fs s ∨
              ∃ text, torn_write fault OUTPUT_DIR
                        (("enc_" +:+ pretty (clock (ticks s)) +:+ "_")
                         +:+ pretty (clock (S (ticks s))) +:+ ".js")
                        (clock (S (S (ticks s)))) text (fs s) (fs s'))) ∨
     (∃ out, tr = success_trace out ∧ is_Some (lookup_entry (fs s') OUTPUT_DIR out))).
Proof.
  unfold onStart.
  generalize (default (mkStart None None None false) data). intros d.
  cbv [try_catch].
  destruct (truthy_text (file d)); cbn [negb].
  2: { cbv [emit]. eexists _, [_]. split; [done |]. split; [done |].
       left. exists 0. eexists. split; [lia |]. split; [done | by left]. }
  cbv [bind existsSync].
  destruct (bool_decide _); cbn [negb].
  2: { cbv [emit]. eexists _, [_]. split; [done |]. split; [done |].
       left. exists 0. eexists. split; [lia |]. split; [done | by left]. }
  cbv [emit lift Date_now log errLog ret].
  cbn [fs emitted console ticks].
  match goal with
  | |- context [readFile ?f ?d ?n ?st] =>
      destruct (readFile f d n st) as [[code | e] s1] eqn:Hr;
      apply readFile_run in Hr; subst s1; cbn [fs emitted console ticks]
  end.
  2: { eexists _, [_; _]. split; [done |]. cbn [emitted fs].
       split; [by rewrite <- !app_assoc |].
       left. exists 1. eexists. split; [lia |]. split; [done | by left]. }
  destruct (selectConfig (preset d)) as [cfg | e].
  2: { eexists _, [_; _; _]. split; [done |]. cbn [emitted fs].
       split; [by rewrite <- !app_assoc |].
       left. exists 2. eexists. split; [lia |]. split; [done | by left]. }
  match goal with
  | |- context [obfuscateWithOptions ?c ?f ?o ?a ?b ?x ?y ?z ?st] =>
      destruct (obfuscateWithOptions c f o a b x y z st) as [[out | e] s1] eqn:Ho;
      apply obfuscateWithOptions_run in Ho; cbn [fs emitted console ticks] in Ho;
      destruct Ho as (He & Hc & Ho)
  end.
  - eexists _, (success_trace out). split; [done |]. cbn [emitted fs].
    split; [rewrite He; by rewrite <- !app_assoc |].
    right. by exists out.
  - eexists _, [_; _; _; _]. split; [done |]. cbn [emitted fs].
    split; [rewrite He; by rewrite <- !app_assoc |].
    left. exists 3. eexists. split; [lia |]. split; [done |]. exact Ho.
Qed.

Lemma job_events_spec (data : option StartData) (s s' : State) (tr : list Event) :
  onStart clock fault obfuscate data s = (Ok (), s') →
  emitted s' = emitted s ++ tr →
  job_events clock fault obfuscate data s = tr.
Proof.
  intros H E. unfold job_events. rewrite H. simpl. rewrite E.
  by rewrite drop_app_length.
Qed.

(** A failed job announces no artifact. *)
Lemma failure_not_successful (k : nat) (m : string) :
  ¬ successful (take k milestones ++ [Error m]).
Proof.
  intros (out & dl & Hin). apply elem_of_app in Hin as [Hin | Hin].
  - apply elem_of_take in Hin as (i & Hi & _).
    unfold milestones in Hi.
    destruct i as [|[|[|[|i]]]]; simpl in Hi; discriminate.
  - apply list_elem_of_singleton in Hin. discriminate.
Qed.

(** C3: a job that announces an artifact has emitted, in this order, the
    progress events of 10, 25, 50 and 90 percent, the completion event
    with the artifact and its retrieval path, and the progress event of
    100 percent.  The percentages increase strictly, 100 is the last
    event and occurs once, next to the completion event, and the artifact
    is in the output directory. *)
Theorem successful_job_progress (data : option StartData) (s : State) :
  successful (job_events clock fault obfuscate data s) →
  ∃ out,
    job_events clock fault obfuscate data s
    = milestones ++ [Done out ("/download/" +:+ out); Progress "Finished!" 100] ∧
    percents (job_events clock fault obfuscate data s) = [10; 25; 50; 90; 100]%Z ∧
    StronglySorted Z.lt (percents (job_events clock fault obfuscate data s)) ∧
    last (job_events clock fault obfuscate data s) = Some (Progress "Finished!" 100) ∧
    is_Some (lookup_entry (fs (onStart clock fault obfuscate data s).2) OUTPUT_DIR out).
Proof.
  intros Hs.
  destruct (onStart_run data s) as (s' & tr & Hrun & He & [Hfail | Hok]).
  - destruct Hfail as (k & m & _ & -> & _).
    rewrite (job_events_spec _ _ _ _ Hrun He) in Hs.
    by apply failure_not_successful in Hs.
  - destruct Hok as (out & -> & Hart).
    rewrite (job_events_spec _ _ _ _ Hrun He). rewrite Hrun.
    exists out. split; [reflexivity |]. split; [reflexivity |].
    split; [| split; [reflexivity | exact Hart]].
    change (percents (success_trace out)) with [10; 25; 50; 90; 100]%Z.
    repeat (constructor; [| repeat constructor; lia]). constructor.
Qed.

(** C6: a start request that names an upload that does not exist sends
    one event, the error with the message of a file not found; no progress
    event is sent, the directories are unchanged and the clock is not read. *)
Theorem missing_upload_yields_one_error (data : StartData) (name : string) (s : State) :
  file data = Some name → name ≠ EmptyString →
  lookup_entry (fs s) UPLOAD_DIR name = None →
  onStart clock fault obfuscate (Some data) s
  = (Ok (), mkState (fs s) (emitted s ++ [Error "File not found."]) (console s) (ticks s)) ∧
  job_events clock fault obfuscate (Some data) s = [Error "File not found."].
Proof.
  intros Hf Hne Hl.
  assert (onStart clock fault obfuscate (Some data) s
          = (Ok (), mkState (fs s) (emitted s ++ [Error "File not found."])
                      (console s) (ticks s))) as Hrun.
  { unfold onStart.
    change (default (mkStart None None None false) (Some data)) with data.
    rewrite Hf, truthy_text_Some by done.
    change (default EmptyString (Some name)) with name. cbn [negb].
    cbv [try_catch bind existsSync]. rewrite Hl.
    rewrite bool_decide_eq_false_2 by (by intros [? ?]).
    reflexivity. }
  split; [exact Hrun |].
  by apply (job_events_spec _ _ _ _ Hrun).
Qed.

(** C1 (the code at the failing inputs): for a readable upload and a
    preset name that is absent, empty or not one of the four compared
    names, resolution raises the reference error of the undeclared
    [getDefaultConfig]; the job stops after its second milestone with an
    error event and writes nothing. *)
Theorem unrecognised_preset_fails_the_job (data : StartData) (name : string)
    (n : Node) (s : State) :
  file data = Some name → name ≠ EmptyString →
  lookup_entry (fs s) UPLOAD_DIR name = Some n → isFile n = true →
  fault OpReadFile UPLOAD_DIR name = false →
  presetKey (preset data) ∉ dispatched →
  selectConfig (preset data) = Throw (ReferenceError "getDefaultConfig") ∧
  job_events clock fault obfuscate (Some data) s
  = [Progress "Reading file..." 10; Progress "Selecting preset..." 25;
     Error "getDefaultConfig is not defined"] ∧
  fs (onStart clock fault obfuscate (Some data) s).2 = fs s.
Proof.
  intros Hf Hne Hl Hn Hr Hp.
  pose proof (selectConfig_fallback _ Hp) as Hsel.
  split; [exact Hsel |].
  assert (∃ s', onStart clock fault obfuscate (Some data) s = (Ok (), s') ∧
            emitted s' = emitted s ++
              [Progress "Reading file..." 10; Progress "Selecting preset..." 25;
               Error "getDefaultConfig is not defined"] ∧
            fs s' = fs s) as (s' & Hrun & He & Hfs).
  { unfold onStart.
    change (default (mkStart None None None false) (Some data)) with data.
    rewrite Hf, truthy_text_Some by done.
    change (default EmptyString (Some name)) with name. cbn [negb].
    cbv [try_catch bind existsSync]. rewrite Hl.
    rewrite bool_decide_eq_true_2 by eauto. cbn [negb].
    cbv [emit]. cbn [fs emitted console ticks].
    erewrite readFile_ok by (cbn [fs]; eauto).
    rewrite Hsel. cbv [lift errLog log]. cbn [fs emitted console ticks].
    eexists. split; [reflexivity |]. cbn [emitted fs].
    split; [by rewrite <- !app_assoc | done]. }
  rewrite Hrun. split; [| exact Hfs].
  by apply (job_events_spec _ _ _ _ Hrun).
Qed.

(** ** The retention sweep *)

Lemma sweep_body_run (dir : string) (now : N) (days : Z) (f : string) (s : State) :
  ∃ s', sweep_body fault dir now (days * 24 * 60 * 60 * 1000) f s = (Ok (), s') ∧
    emitted s' = emitted s ∧ ticks s' = ticks s ∧
    ∀ d g, lookup_entry (fs s') d g =
           if decide (d = dir ∧ g = f)
           then after_sweep fault dir now days f (lookup_entry (fs s) dir f)
           else lookup_entry (fs s) d g.
Proof.
  unfold sweep_body, after_sweep, swept, expired.
  cbv [try_catch bind stat remove log ret].
  destruct (fault OpStat dir f) eqn:Hs; cbn [negb andb].
  { exists s. repeat split; try done. intros d g. case_decide as E; [| done].
    destruct E as [-> ->]. by destruct (lookup_entry _ _ _). }
  destruct (lookup_entry (fs s) dir f) as [n|] eqn:Hl.
  2: { exists s. repeat split; try done. intros d g. case_decide as E; [| done].
       destruct E as [-> ->]. done. }
  destruct (isFile n && _) eqn:Hx; cbn [andb].
  2: { exists s. repeat split; try done. intros d g. case_decide as E; [| done].
       destruct E as [-> ->]. done. }
  destruct (fault OpRemove dir f) eqn:Hr; cbn [negb].
  { exists s. repeat split; try done. intros d g. case_decide as E; [| done].
    destruct E as [-> ->]. done. }
  eexists. split; [done |]. cbn [fs emitted ticks]. repeat split; try done.
  intros d g. rewrite lookup_entry_remove. by case_decide.
Qed.

(** The loop over distinct names treats each entry on its own. *)
Lemma sweep_loop (dir : string) (now : N) (days : Z) (l : list string) :
  NoDup l → ∀ s,
  ∃ s', for_each l (sweep_body fault dir now (days * 24 * 60 * 60 * 1000)) s = (Ok (), s') ∧
    emitted s' = emitted s ∧ ticks s' = ticks s ∧
    ∀ d g, lookup_entry (fs s') d g =
           if decide (d = dir ∧ g ∈ l)
           then after_sweep fault dir now days g (lookup_entry (fs s) dir g)
           else lookup_entry (fs s) d g.
Proof.
  induction 1 as [| f l Hf Hl IH]; intros s.
  - exists s. repeat split; try done. intros d g. case_decide as E; [| done].
    destruct E as [_ E]. by apply elem_of_nil in E.
  - destruct (sweep_body_run dir now days f s) as (s1 & H1 & He1 & Ht1 & Hfs1).
    destruct (IH s1) as (s2 & H2 & He2 & Ht2 & Hfs2).
    exists s2. split.
    { cbn [for_each]. unfold bind. by rewrite H1. }
    split; [congruence |]. split; [congruence |].
    intros d g. rewrite Hfs2, !Hfs1.
    destruct (decide (d = dir)) as [-> | Hd].
    2: { rewrite !decide_False by (intros [? _]; done). done. }
    destruct (decide (g = f)) as [-> | Hg].
    + rewrite (decide_False (P := dir = dir ∧ f ∈ l)) by (intros [_ ?]; done).
      rewrite !decide_True; [done | | done].
      split; [done | apply elem_of_cons; by left].
    + destruct (decide (g ∈ l)) as [Hin | Hout].
      * rewrite (decide_True (P := dir = dir ∧ g ∈ l)) by done.
        rewrite (decide_False (P := dir = dir ∧ g = f)) by (intros [_ ?]; done).
        rewrite decide_True; [done |].
        split; [done | apply elem_of_cons; by right].
      * rewrite (decide_False (P := dir = dir ∧ g ∈ l)) by (intros [_ ?]; done).
        rewrite (decide_False (P := dir = dir ∧ g = f)) by (intros [_ ?]; done).
        rewrite decide_False; [done |].
        intros [_ Hin]. apply elem_of_cons in Hin. destruct Hin; done.
Qed.

(** C9: a sweep always returns, also when the directory cannot be read,
    and then changes nothing.  When the directory is read, each entry is
    settled on its own: it is removed exactly when it is a regular file
    older than the cutoff whose [fs.stat] and [fs.remove] succeed, and
    every other entry (newer, not a regular file, or failing) is left as
    it was, whatever happened to the entries before it.  Other
    directories are untouched and nothing is sent to a client. *)
Theorem sweep_removes_expired_files (dir : string) (olderThanDays : Z) (s : State) :
  ∃ s', cleanupOldFiles clock fault dir olderThanDays s = (Ok (), s') ∧
    emitted s' = emitted s ∧
    (∀ d g, d ≠ dir → lookup_entry (fs s') d g = lookup_entry (fs s) d g) ∧
    ∀ f, lookup_entry (fs s') dir f =
         if fault OpReaddir dir EmptyString then lookup_entry (fs s) dir f
         else after_sweep fault dir (clock (ticks s)) olderThanDays f
                (lookup_entry (fs s) dir f).
Proof.
  unfold cleanupOldFiles. unfold try_catch at 1. unfold bind at 1. unfold readdir.
  destruct (fault OpReaddir dir EmptyString) eqn:Hrd.
  { eexists. split; [done |]. cbn [errLog log fs emitted]. repeat split; done. }
  destruct (fs s !! dir) as [dm|] eqn:Hdir.
  2: { eexists. split; [done |]. cbn [errLog log fs emitted]. split; [done |].
       split; [done |]. intros f. unfold lookup_entry. by rewrite Hdir. }
  unfold bind at 1. cbv [Date_now].
  match goal with
  | |- context [for_each ?l ?b ?st] =>
      destruct (sweep_loop dir (clock (ticks s)) olderThanDays l
                  (NoDup_fst_map_to_list dm) st) as (s' & Hrun & He & _ & Hfs)
  end.
  cbn [fs emitted console ticks] in *.
  exists s'. rewrite Hrun. split; [done |]. split; [done |].
  split.
  - intros d g Hd. rewrite Hfs. rewrite decide_False; [done | intros [? _]; done].
  - intros f. rewrite Hfs.
    destruct (decide (f ∈ (map_to_list dm).*1)) as [Hin | Hout].
    + by rewrite decide_True.
    + rewrite decide_False by (intros [_ ?]; done).
      rewrite readdir_names in Hout.
      unfold lookup_entry. rewrite Hdir. simpl.
      destruct (dm !! f); [exfalso; eauto | done].
Qed.
End Jobs.

(** ** The properties on the concrete server *)

Lemma successful_job_progress_witness :
  ∃ out,
    job_events Scenario.clock Scenario.fault Scenario.obfuscate
      (Some (Scenario.request (Some "Nova"))) Scenario.idle
    = milestones ++ [Done out ("/download/" +:+ out); Progress "Finished!" 100] ∧
    is_Some (lookup_entry
      (fs (onStart Scenario.clock Scenario.fault Scenario.obfuscate
             (Some (Scenario.request (Some "Nova"))) Scenario.idle).2) OUTPUT_DIR out).
Proof.
  destruct (successful_job_progress Scenario.clock Scenario.fault Scenario.obfuscate
              (Some (Scenario.request (Some "Nova"))) Scenario.idle)
    as (out & H & _ & _ & _ & Hart).
  - exists "enc_1700000000000_1700000000000.js",
      "/download/enc_1700000000000_1700000000000.js".
    by_computation.
  - exists out. split; [exact H | exact Hart].
Defined.

Lemma missing_upload_yields_one_error_witness :
  job_events Scenario.clock Scenario.fault Scenario.obfuscate
    (Some (mkStart (Some "absent.js") (Some "nova") None false)) Scenario.idle
  = [Error "File not found."].
Proof.
  apply (missing_upload_yields_one_error Scenario.clock Scenario.fault Scenario.obfuscate
           (mkStart (Some "absent.js") (Some "nova") None false) "absent.js" Scenario.idle).
  - reflexivity.
  - discriminate.
  - vm_compute. reflexivity.
Defined.

Lemma unrecognised_preset_fails_the_job_witness :
  job_events Scenario.clock Scenario.fault Scenario.obfuscate
    (Some (Scenario.request None)) Scenario.idle
  = [Progress "Reading file..." 10; Progress "Selecting preset..." 25;
     Error "getDefaultConfig is not defined"].
Proof.
  apply (unrecognised_preset_fails_the_job Scenario.clock Scenario.fault Scenario.obfuscate
           (Scenario.request None) "hello.js"
           (mkNode true (1700000000000 - 1 * Scenario.day) "console.log(1)") Scenario.idle).
  - reflexivity.
  - discriminate.
  - vm_compute. reflexivity.
  - reflexivity.
  - reflexivity.
  - by_computation.
Defined.

Lemma sweep_removes_expired_files_witness :
  ∃ s', cleanupOldFiles Scenario.clock Scenario.fault UPLOAD_DIR 7 Scenario.idle = (Ok (), s') ∧
    lookup_entry (fs s') UPLOAD_DIR "old.js" = None ∧
    is_Some (lookup_entry (fs s') UPLOAD_DIR "hello.js") ∧
    is_Some (lookup_entry (fs s') UPLOAD_DIR "edge.js") ∧
    is_Some (lookup_entry (fs s') UPLOAD_DIR "locked.log") ∧
    is_Some (lookup_entry (fs s') UPLOAD_DIR "broken.js") ∧
    is_Some (lookup_entry (fs s') UPLOAD_DIR "archive").
Proof.
  destruct (sweep_removes_expired_files Scenario.clock Scenario.fault UPLOAD_DIR 7 Scenario.idle)
    as (s' & Hrun & _ & _ & Hfs).
  exists s'. split; [exact Hrun |].
  rewrite !Hfs. vm_compute. repeat split; eauto.
Defined.

(* ===================================================================== *)
(** * Further properties of the code *)
(* ===================================================================== *)

Import Upload Observed Generators.

(** ** Texts *)

Lemma all_chars_app (P : ascii → bool) (a b : string) :
  all_chars P (a +:+ b) = all_chars P a && all_chars P b.
Proof.
  induction a as [|x a IH]; [done |].
  rewrite append_cons. simpl. by rewrite IH, andb_assoc.
Qed.

Lemma all_chars_impl (P Q : ascii → bool) (s : string) :
  (∀ c, P c = true → Q c = true) → all_chars P s = true → all_chars Q s = true.
Proof.
  intros H. induction s as [|x s IH]; [done |]. simpl.
  intros [Hx Hs]%andb_prop. by rewrite (H x Hx), IH.
Qed.

(** Two texts free of a character, each followed by it, agree when the
    whole texts agree. *)
Lemma split_at_first (P : ascii → bool) (q : ascii) (a1 a2 r1 r2 : string) :
  P q = false → all_chars P a1 = true → all_chars P a2 = true →
  a1 +:+ String q r1 = a2 +:+ String q r2 → a1 = a2 ∧ r1 = r2.
Proof.
  intros Hq. revert a2. induction a1 as [|x a1 IH]; intros [|y a2] H1 H2 E.
  - by injection E as ->.
  - rewrite append_nil_l, append_cons in E. injection E as <- _.
    simpl in H2. rewrite Hq in H2. done.
  - rewrite append_nil_l, append_cons in E. injection E as -> _.
    simpl in H1. rewrite Hq in H1. done.
  - rewrite !append_cons in E. injection E as -> E.
    simpl in H1, H2. apply andb_prop in H1 as [_ H1]. apply andb_prop in H2 as [_ H2].
    destruct (IH a2 H1 H2 E) as [-> ->]. done.
Qed.

Lemma index_from_first (P : ascii → bool) (q : ascii) (k : nat) (a r : string) :
  P q = false → all_chars P a = true →
  index_from k (String q EmptyString) (a +:+ String q r) = Some (k + String.length a).
Proof.
  intros Hq. revert k. induction a as [|x a IH]; intros k Ha.
  - rewrite append_nil_l. simpl. rewrite decide_True by done. f_equal. lia.
  - rewrite append_cons. simpl in Ha. apply andb_prop in Ha as [Hx Ha].
    cbn [index_from starts_with].
    rewrite decide_False by (intros ->; congruence).
    rewrite IH by done. f_equal. simpl. lia.
Qed.

Lemma append_inj_r (a b t : string) : a +:+ t = b +:+ t → a = b.
Proof.
  revert b. induction a as [|x a IH]; intros [|y b] E.
  - done.
  - exfalso. apply (f_equal String.length) in E.
    rewrite append_nil_l, append_cons in E. simpl in E. rewrite length_append in E. lia.
  - exfalso. apply (f_equal String.length) in E.
    rewrite append_nil_l, append_cons in E. simpl in E. rewrite length_append in E. lia.
  - rewrite !append_cons in E. injection E as -> E. by rewrite (IH b E).
Qed.

(** ** The password literal and the wrapper *)

Lemma char_of_is_base64 (i : nat) : i < 64 → is_base64 (Base64.char_of i) = true.
Proof.
  intros Hi.
  assert (H : forallb (λ i, is_base64 (Base64.char_of i)) (seq 0 64) = true)
    by (vm_compute; reflexivity).
  rewrite forallb_forall in H. apply H, in_seq. lia.
Qed.

Lemma encode_is_base64 (s : string) : all_chars is_base64 (Base64.encode s) = true.
Proof.
  induction s as [|a|a b|a b c s IH] using Base64.triples_ind.
  - reflexivity.
  - pose proof (nat_ascii_bounded a).
    cbn [Base64.encode all_chars].
    rewrite !char_of_is_base64 by auto using Base64.sextet1, Base64.sextet2_last.
    reflexivity.
  - pose proof (nat_ascii_bounded a). pose proof (nat_ascii_bounded b).
    cbn [Base64.encode all_chars].
    rewrite !char_of_is_base64
      by auto using Base64.sextet1, Base64.sextet2, Base64.sextet3_last.
    reflexivity.
  - pose proof (nat_ascii_bounded a). pose proof (nat_ascii_bounded b).
    pose proof (nat_ascii_bounded c).
    rewrite Base64.encode_three. cbn [all_chars].
    rewrite !char_of_is_base64
      by auto using Base64.sextet1, Base64.sextet2, Base64.sextet3, Base64.sextet4.
    by rewrite IH.
Qed.

Lemma gate_check_quote : ∃ r, gate_check = String quote r.
Proof. eexists. reflexivity. Qed.

(** X1: whatever the password, its encoding holds base64 characters only,
    so the first single quote after the opening quote of the literal is the
    closing quote the template writes: a password cannot end the literal
    early. *)
Theorem encoded_literal_ends_at_quote (pw rest : string) :
  all_chars is_base64 (Base64.encode pw) = true ∧
  indexOf (String quote EmptyString) (Base64.encode pw +:+ gate_check +:+ rest)
  = Some (String.length (Base64.encode pw)).
Proof.
  split; [apply encode_is_base64 |].
  destruct gate_check_quote as [r ->]. rewrite append_cons.
  unfold indexOf. rewrite (index_from_first is_base64); [done | reflexivity |].
  apply encode_is_base64.
Qed.

(** X2: the template keeps its two arguments as far as [Buffer.from]
    keeps the password: two templates built for passwords are equal
    exactly when the passwords have the same bytes and the wrapped codes
    are equal.  Passwords that differ in a lone surrogate only have the
    same bytes, so the same template. *)
Theorem template_determines_password_and_code (p1 p2 : Utf16.JsString) (c1 c2 : string) :
  createPasswordTemplate (encoded p1) c1 = createPasswordTemplate (encoded p2) c2 ↔
  Utf16.Buffer_from p1 = Utf16.Buffer_from p2 ∧ c1 = c2.
Proof.
  split; [| by intros [E ->]; unfold encoded; rewrite E].
  unfold createPasswordTemplate, encoded. intros E.
  do 3 apply (inj (String.append _)) in E.
  destruct gate_check_quote as [r Hr]. rewrite Hr, !append_cons in E.
  apply (split_at_first is_base64) in E as [Ee E];
    [| reflexivity | apply encode_is_base64 | apply encode_is_base64].
  split.
  - rewrite <- (Base64.decode_encode (Utf16.Buffer_from p1)),
      <- (Base64.decode_encode (Utf16.Buffer_from p2)). by rewrite Ee.
  - rewrite <- !append_assoc in E. by apply append_inj_r, (inj (String.append r)) in E.
Qed.

Lemma template_determines_password_and_code_witness :
  createPasswordTemplate (encoded (Utf16.of_ascii "hunter2")) "main()"
  ≠ createPasswordTemplate (encoded (Utf16.of_ascii "hunter3")) "main()" ∧
  [0xD800%N] ≠ [0xD801%N] ∧
  createPasswordTemplate (encoded [0xD800%N]) "main()"
  = createPasswordTemplate (encoded [0xD801%N]) "main()".
Proof.
  split; [| split; [discriminate |]].
  - intros E.
    apply (template_determines_password_and_code
             (Utf16.of_ascii "hunter2") (Utf16.of_ascii "hunter3") "main()" "main()") in E.
    destruct E as [H _]. discriminate H.
  - apply (template_determines_password_and_code [0xD800%N] [0xD801%N] "main()" "main()").
    split; reflexivity.
Defined.

(** X3: wrapping loses nothing of the source: with the same flag and the
    same password, two sources that wrap to the same text are equal. *)
Theorem wrapped_determines_code (c1 c2 : string) (addAntiBypass : bool)
    (pw : option Utf16.JsString) :
  wrapped c1 addAntiBypass pw = wrapped c2 addAntiBypass pw → c1 = c2.
Proof.
  unfold wrapped, createPasswordTemplate.
  destruct (Utf16.truthy pw), addAntiBypass; intros E.
  - do 5 apply (inj (String.append _)) in E.
    apply append_inj_r in E.
    by do 2 apply (inj (String.append _)) in E.
  - do 5 apply (inj (String.append _)) in E. by apply append_inj_r in E.
  - by do 2 apply (inj (String.append _)) in E.
  - done.
Qed.

Lemma wrapped_determines_code_witness :
  wrapped "a()" true (Some (Utf16.of_ascii "x")) ≠ wrapped "b()" true (Some (Utf16.of_ascii "x")).
Proof.
  intros E.
  discriminate (wrapped_determines_code "a()" "b()" true (Some (Utf16.of_ascii "x")) E).
Defined.

(** ** Jobs *)

Lemma wrapped_or_null (code : string) (ab : bool) (pw : option Utf16.JsString) :
  wrapped code ab (or_null pw) = wrapped code ab pw.
Proof.
  unfold wrapped, or_null. destruct (Utf16.truthy pw) eqn:E; [by rewrite E | done].
Qed.

Section MoreJobs.
Variable clock : nat → N.
Variable fault : FsOp → string → string → bool.
Variable obfuscate : string → option Config → Result JsValue.

Lemma writeFile_ok (dir name text : string) (d : gmap string Node) (s : State) :
  fault OpWriteFile dir name = false → fs s !! dir = Some d →
  (∀ n, d !! name = Some n → isFile n = true) →
  writeFile clock fault dir name (Some text) s
  = (Ok (), mkState (<[dir := <[name := mkNode true (Z.of_N (clock (ticks s))) text]> d]> (fs s))
              (emitted s) (console s) (ticks s)).
Proof.
  intros Hf Hd Hn. unfold writeFile. rewrite Hf, Hd.
  destruct (d !! name) as [n|] eqn:E; [| done]. by rewrite (Hn n).
Qed.

(** The run of a job up to the call of the engine, for a readable upload
    and a resolved preset. *)
Lemma job_reaches_engine (data : StartData) (name : string) (n : Node) (cfg : Config)
    (s : State) :
  file data = Some name → name ≠ EmptyString →
  lookup_entry (fs s) UPLOAD_DIR name = Some n → isFile n = true →
  fault OpReadFile UPLOAD_DIR name = false →
  selectConfig (preset data) = Ok cfg →
  onStart clock fault obfuscate (Some data) s
  = try_catch
      (outName <- obfuscateAndWrite clock fault obfuscate
                    (wrapped (content n) (antibypass data) (password data)) (Some cfg)
                    ("enc_" +:+ pretty (clock (ticks s)) +:+ "_") ;;
       emit (Progress "Writing result..." 90) ;;
       emit (Done outName ("/download/" +:+ outName)) ;;
       emit (Progress "Finished!" 100) ;;
       log ("[WEB-OBF] ✔ Finished obfuscation: " +:+ name))
      (λ e,
         errLog ("[WEB-OBF] Obfuscation error: " +:+ error_text e) ;;
         emit (Error (error_text e)))
      (mkState (fs s) (emitted s ++ take 3 milestones) (console s) (S (ticks s))).
Proof.
  intros Hf Hne Hl Hn Hr Hsel.
  unfold onStart.
  change (default (mkStart None None None false) (Some data)) with data.
  rewrite Hf, truthy_text_Some by done.
  change (default EmptyString (Some name)) with name. cbn [negb].
  unfold try_catch. f_equal.
  unfold bind at 1. unfold existsSync at 1. rewrite Hl.
  rewrite bool_decide_eq_true_2 by eauto. cbn [negb].
  unfold bind at 1. unfold emit at 1.
  unfold bind at 1. erewrite readFile_ok by (cbn [fs]; eauto).
  unfold bind at 1. unfold emit at 1. cbn [fs emitted console ticks].
  unfold bind at 1. unfold lift at 1. rewrite Hsel.
  unfold bind at 1. unfold emit at 1. cbn [fs emitted console ticks].
  unfold bind at 1. unfold Date_now at 1. cbn [fs emitted console ticks].
  rewrite <- !app_assoc. cbn [app take milestones].
  unfold obfuscateWithOptions.
  assert ((if Utf16.truthy (or_null (password data)) then ret (Some cfg) else ret (Some cfg))
          = ret (Some cfg)) as -> by (by destruct (Utf16.truthy _)).
  rewrite wrapped_or_null.
  unfold bind at 1. unfold bind at 1. unfold ret at 1.
  unfold bind at 4. reflexivity.
Qed.
(** X4: a request without a file name (no data, no [file] field, or an
    empty one) is answered by the single error event of a missing file
    name; nothing is read, written or logged. *)
Theorem request_without_file (data : option StartData) (s : State) :
  truthy_text (file (default (mkStart None None None false) data)) = false →
  onStart clock fault obfuscate data s
  = (Ok (), mkState (fs s) (emitted s ++ [Error "No file specified."]) (console s) (ticks s)).
Proof. intros H. unfold onStart, try_catch. by rewrite H. Qed.

(** X5: when the engine throws on a readable upload with a resolved
    preset, the client receives the first three milestones and then one
    error event that carries the engine's message as it is; no artifact is
    written and the error is logged. *)
Theorem engine_failure_is_reported (data : StartData) (name : string) (n : Node)
    (cfg : Config) (e : JsError) (s : State) :
  file data = Some name → name ≠ EmptyString →
  lookup_entry (fs s) UPLOAD_DIR name = Some n → isFile n = true →
  fault OpReadFile UPLOAD_DIR name = false →
  selectConfig (preset data) = Ok cfg →
  obfuscate (wrapped (content n) (antibypass data) (password data)) (Some cfg) = Throw e →
  err_message e ≠ EmptyString →
  onStart clock fault obfuscate (Some data) s
  = (Ok (), mkState (fs s)
              (emitted s ++ take 3 milestones ++ [Error (err_message e)])
              (console s ++ ["[WEB-OBF] Obfuscation error: " +:+ err_message e])
              (S (ticks s))).
Proof.
  intros Hf Hne Hl Hn Hr Hsel Hob Hm.
  rewrite (job_reaches_engine data name n cfg s) by done.
  unfold try_catch, bind at 1, obfuscateAndWrite, bind at 1, lift. rewrite Hob.
  cbv [bind errLog log emit]. cbn [fs emitted console ticks].
  unfold error_text. rewrite decide_False by done.
  by rewrite <- !app_assoc.
Qed.

(** The whole run of a job whose steps all succeed. *)
Lemma job_success_run (data : StartData) (name : string) (n : Node) (cfg : Config)
    (result : JsValue) (text : string) (d : gmap string Node) (s : State) :
  let out := artifact_name (clock (ticks s)) (clock (S (ticks s))) in
  file data = Some name → name ≠ EmptyString →
  lookup_entry (fs s) UPLOAD_DIR name = Some n → isFile n = true →
  fault OpReadFile UPLOAD_DIR name = false →
  selectConfig (preset data) = Ok cfg →
  obfuscate (wrapped (content n) (antibypass data) (password data)) (Some cfg) = Ok result →
  normalize result = Ok (Some text) →
  fault OpWriteFile OUTPUT_DIR out = false →
  fs s !! OUTPUT_DIR = Some d →
  (∀ n', d !! out = Some n' → isFile n' = true) →
  onStart clock fault obfuscate (Some data) s
  = (Ok (), mkState
              (<[OUTPUT_DIR := <[out := mkNode true (Z.of_N (clock (S (S (ticks s))))) text]> d]>
                 (fs s))
              (emitted s ++ success_trace out)
              (console s ++ ["[WEB-OBF] ✔ Finished obfuscation: " +:+ name])
              (S (S (ticks s)))).
Proof.
  intros out Hf Hne Hl Hn Hr Hsel Hob Hnorm Hw Hd Hd'.
  rewrite (job_reaches_engine data name n cfg s) by done.
  unfold try_catch, bind at 1, obfuscateAndWrite, bind at 1, lift. rewrite Hob.
  unfold bind at 1. rewrite Hnorm.
  unfold bind at 1, Date_now. cbn [fs emitted console ticks].
  fold (artifact_name (clock (ticks s)) (clock (S (ticks s)))). fold out.
  unfold bind at 1. erewrite writeFile_ok by (cbn [fs]; eauto).
  cbv [bind ret log emit]. cbn [fs emitted console ticks].
  by rewrite <- !app_assoc.
Qed.

(** X6: a job succeeds whenever the upload is a readable file, the preset
    is one of the four dispatched names, the engine returns a result that
    normalises to a text, and the artifact can be written.  The artifact is
    named by the two readings of the clock, holds the normalised result of
    the engine on the wrapped upload, and the uploads and every other
    artifact stay as they were. *)
Theorem job_succeeds_and_stores_result (data : StartData) (name : string) (n : Node)
    (cfg : Config) (result : JsValue) (text : string) (d : gmap string Node) (s : State) :
  let out := artifact_name (clock (ticks s)) (clock (S (ticks s))) in
  let s' := (onStart clock fault obfuscate (Some data) s).2 in
  file data = Some name → name ≠ EmptyString →
  lookup_entry (fs s) UPLOAD_DIR name = Some n → isFile n = true →
  fault OpReadFile UPLOAD_DIR name = false →
  selectConfig (preset data) = Ok cfg →
  obfuscate (wrapped (content n) (antibypass data) (password data)) (Some cfg) = Ok result →
  normalize result = Ok (Some text) →
  fault OpWriteFile OUTPUT_DIR out = false →
  fs s !! OUTPUT_DIR = Some d →
  (∀ n', d !! out = Some n' → isFile n' = true) →
  job_events clock fault obfuscate (Some data) s = success_trace out ∧
  (content <$> lookup_entry (fs s') OUTPUT_DIR out) = Some text ∧
  (isFile <$> lookup_entry (fs s') OUTPUT_DIR out) = Some true ∧
  ∀ dir g, (dir, g) ≠ (OUTPUT_DIR, out) →
           lookup_entry (fs s') dir g = lookup_entry (fs s) dir g.
Proof.
  intros out s' Hf Hne Hl Hn Hr Hsel Hob Hnorm Hw Hd Hd'.
  pose proof (job_success_run data name n cfg result text d s
                Hf Hne Hl Hn Hr Hsel Hob Hnorm Hw Hd Hd') as Hrun.
  fold out in Hrun. subst s'. rewrite Hrun. cbn [snd fs].
  split; [by apply (job_events_spec _ _ _ _ _ _ _ Hrun) |].
  unfold lookup_entry.
  split; [by rewrite lookup_insert_eq; simpl; rewrite lookup_insert_eq |].
  split; [by rewrite lookup_insert_eq; simpl; rewrite lookup_insert_eq |].
  intros dir g Hne'.
  destruct (decide (dir = OUTPUT_DIR)) as [-> | Hdir].
  - rewrite lookup_insert_eq, Hd. simpl.
    rewrite lookup_insert_ne; [done | congruence].
  - by rewrite lookup_insert_ne.
Qed.

(** X7: the download route answers 404 for a name that is not in the
    output directory, and after a successful job it serves the artifact
    that the completion event names. *)
Theorem download_serves_the_artifact (data : StartData) (name : string) (n : Node)
    (cfg : Config) (result : JsValue) (text : string) (d : gmap string Node) (s : State) :
  let out := artifact_name (clock (ticks s)) (clock (S (ticks s))) in
  let s' := (onStart clock fault obfuscate (Some data) s).2 in
  file data = Some name → name ≠ EmptyString →
  lookup_entry (fs s) UPLOAD_DIR name = Some n → isFile n = true →
  fault OpReadFile UPLOAD_DIR name = false →
  selectConfig (preset data) = Ok cfg →
  obfuscate (wrapped (content n) (antibypass data) (password data)) (Some cfg) = Ok result →
  normalize result = Ok (Some text) →
  fault OpWriteFile OUTPUT_DIR out = false →
  fs s !! OUTPUT_DIR = Some d → d !! out = None →
  downloadRoute out s = Send 404 "File not found" ∧
  Done out ("/download/" +:+ out) ∈ job_events clock fault obfuscate (Some data) s ∧
  downloadRoute out s' = Download OUTPUT_DIR out.
Proof.
  intros out s' Hf Hne Hl Hn Hr Hsel Hob Hnorm Hw Hd Hnone.
  assert (∀ n', d !! out = Some n' → isFile n' = true) as Hd' by (by rewrite Hnone).
  pose proof (job_success_run data name n cfg result text d s
                Hf Hne Hl Hn Hr Hsel Hob Hnorm Hw Hd Hd') as Hrun.
  fold out in Hrun.
  split; [| split].
  - unfold downloadRoute, lookup_entry. rewrite Hd. simpl. rewrite Hnone.
    by rewrite bool_decide_eq_false_2 by (by intros [? ?]).
  - rewrite (job_events_spec _ _ _ _ _ _ _ Hrun eq_refl).
    unfold success_trace. apply elem_of_app. right. apply elem_of_cons. by left.
  - subst s'. rewrite Hrun. cbn [snd]. unfold downloadRoute, lookup_entry. cbn [fs].
    rewrite lookup_insert_eq. simpl. rewrite lookup_insert_eq.
    by rewrite bool_decide_eq_true_2 by eauto.
Qed.

(** Entries other than the one a torn write was made to are as before. *)
Lemma torn_write_other (dir name : string) (now : N) (text : string) (t t' : FileSystem)
    (d g : string) :
  torn_write fault dir name now text t t' → (d, g) ≠ (dir, name) →
  lookup_entry t' d g = lookup_entry t d g.
Proof.
  intros (_ & _ & d0 & Hw & ->) Hne. unfold lookup_entry.
  assert (t !! dir = Some d0) as Ht.
  { unfold writable in Hw. destruct (t !! dir) as [d1|]; [| done].
    destruct (d1 !! name) as [n|]; [destruct (isFile n) |]; congruence. }
  destruct (decide (d = dir)) as [-> | Hd].
  - rewrite lookup_insert_eq, Ht. simpl. rewrite lookup_insert_ne; [done | congruence].
  - by rewrite lookup_insert_ne.
Qed.

(** X8: a start request whose call of the engine settles is answered by
    exactly one terminal event, a completion or an error, and the handler
    itself never throws.  When the terminal event is an error it is the
    last event, and the directories are as they were unless the write of
    the artifact failed after the file was opened: the entry of the
    artifact is then a regular file with the bytes written by then.  Every
    other entry is as it was in both cases. *)
Theorem job_has_one_terminal_event (data : option StartData) (s : State) :
  let out := artifact_name (clock (ticks s)) (clock (S (ticks s))) in
  ∃ s', onStart clock fault obfuscate data s = (Ok (), s') ∧
    length (filter (λ e, is_terminal e = true) (job_events clock fault obfuscate data s)) = 1 ∧
    ∀ m, Error m ∈ job_events clock fault obfuscate data s →
         last (job_events clock fault obfuscate data s) = Some (Error m) ∧
         (fs s' = fs s ∨
          ∃ text, torn_write fault OUTPUT_DIR out (clock (S (S (ticks s)))) text (fs s) (fs s')) ∧
         ∀ d g, (d, g) ≠ (OUTPUT_DIR, out) →
                lookup_entry (fs s') d g = lookup_entry (fs s) d g.
Proof.
  intros out.
  destruct (onStart_run clock fault obfuscate data s) as (s' & tr & Hrun & He & Hcases).
  exists s'. split; [exact Hrun |].
  rewrite (job_events_spec _ _ _ _ _ _ _ Hrun He).
  destruct Hcases as [(k & m & Hk & -> & Hfs) | (out' & -> & _)].
  - assert (k = 0 ∨ k = 1 ∨ k = 2 ∨ k = 3) as Hk' by lia.
    split.
    + destruct Hk' as [-> | [-> | [-> | ->]]]; reflexivity.
    + intros m' Hin. split; [| split; [exact Hfs |]].
      * rewrite last_snoc. f_equal.
        apply elem_of_app in Hin as [Hin | Hin].
        -- exfalso. apply elem_of_take in Hin as (i & Hi & _).
           destruct i as [|[|[|[|i]]]]; simpl in Hi; discriminate.
        -- by apply list_elem_of_singleton in Hin as ->.
      * intros d g Hne. destruct Hfs as [-> | [text Ht]]; [done |].
        exact (torn_write_other _ _ _ _ _ _ _ _ Ht Hne).
  - split; [reflexivity |].
    intros m Hin. exfalso. unfold success_trace, milestones in Hin.
    repeat (apply elem_of_cons in Hin as [Hin | Hin]; [discriminate |]).
    by apply elem_of_nil in Hin.
Qed.
End MoreJobs.

(** ** Sweeps *)

Section MoreSweeps.
Variable clock : nat → N.
Variable fault : FsOp → string → string → bool.

(** Every entry after a sweep, in terms of the entries before it. *)
Lemma cleanupOldFiles_run (dir : string) (olderThanDays : Z) (s : State) :
  ∃ s', cleanupOldFiles clock fault dir olderThanDays s = (Ok (), s') ∧
    ∀ d g, lookup_entry (fs s') d g =
           if decide (d = dir)
           then (if fault OpReaddir dir EmptyString then lookup_entry (fs s) dir g
                 else after_sweep fault dir (clock (ticks s)) olderThanDays g
                        (lookup_entry (fs s) dir g))
           else lookup_entry (fs s) d g.
Proof.
  unfold cleanupOldFiles. unfold try_catch at 1. unfold bind at 1. unfold readdir.
  destruct (fault OpReaddir dir EmptyString) eqn:Hrd.
  { eexists. split; [done |]. cbn [errLog log fs]. intros d g. by case_decide; subst. }
  destruct (fs s !! dir) as [dm|] eqn:Hdir.
  2: { eexists. split; [done |]. cbn [errLog log fs]. intros d g.
       case_decide; [subst d | done]. unfold lookup_entry. by rewrite Hdir. }
  unfold bind at 1. cbv [Date_now].
  match goal with
  | |- context [for_each ?l ?b ?st] =>
      destruct (sweep_loop fault dir (clock (ticks s)) olderThanDays l
                  (NoDup_fst_map_to_list dm) st) as (s' & Hrun & _ & _ & Hfs)
  end.
  cbn [fs emitted console ticks] in *.
  exists s'. rewrite Hrun. split; [done |].
  intros d g. rewrite Hfs.
  destruct (decide (d = dir)) as [-> | Hd].
  - destruct (decide (g ∈ (map_to_list dm).*1)) as [Hin | Hout].
    + by rewrite decide_True.
    + rewrite decide_False by (intros [_ ?]; done).
      rewrite readdir_names in Hout.
      unfold lookup_entry. rewrite Hdir. simpl.
      destruct (dm !! g); [exfalso; eauto | done].
  - rewrite decide_False; [done | intros [? _]; done].
Qed.

(** What a sweep leaves, another sweep at the same instant with the same
    failures leaves as it is. *)
Lemma after_sweep_idem (dir : string) (now : N) (days : Z) (g : string) (e : option Node) :
  after_sweep fault dir now days g (after_sweep fault dir now days g e)
  = after_sweep fault dir now days g e.
Proof.
  destruct e as [n|]; [| done]. simpl.
  destruct (swept fault dir now days g n) eqn:E; [done |]. simpl. by rewrite E.
Qed.

(** X10: a sweep only removes regular files: what is in a directory after
    a sweep was there before, unchanged; and a directory entry, or a file
    modified no longer ago than the cutoff, is never removed. *)
Theorem sweep_keeps_fresh_files_and_directories (dir : string) (olderThanDays : Z)
    (s : State) (d g : string) (n : Node) :
  let s' := (cleanupOldFiles clock fault dir olderThanDays s).2 in
  (lookup_entry (fs s') d g = Some n → lookup_entry (fs s) d g = Some n) ∧
  (lookup_entry (fs s) d g = Some n →
   isFile n = false ∨
   (Z.of_N (clock (ticks s)) - mtimeMs n ≤ olderThanDays * 24 * 60 * 60 * 1000)%Z →
   lookup_entry (fs s') d g = Some n).
Proof.
  intros s'.
  destruct (cleanupOldFiles_run dir olderThanDays s) as (t & Hrun & Hfs).
  assert (s' = t) as -> by (subst s'; by rewrite Hrun).
  rewrite Hfs. case_decide as Hd; [subst d | done].
  destruct (fault OpReaddir dir EmptyString); [done |].
  split.
  - destruct (lookup_entry (fs s) dir g) as [n0|]; [| done]. simpl.
    by destruct (swept fault dir (clock (ticks s)) olderThanDays g n0).
  - intros -> Hkeep. simpl.
    assert (swept fault dir (clock (ticks s)) olderThanDays g n = false) as ->; [| done].
    unfold swept, expired.
    destruct Hkeep as [-> | Hfresh].
    + by rewrite andb_false_r.
    + assert ((Z.of_N (clock (ticks s)) - mtimeMs n >? olderThanDays * 24 * 60 * 60 * 1000)%Z
              = false) as ->.
      { rewrite Z.gtb_ltb. apply Z.ltb_ge. lia. }
      by rewrite !andb_false_r.
Qed.
End MoreSweeps.

Section TwoSweeps.
Variable clock : nat → N.
(** The failures of the calls of [fs] during the first sweep and during
    the second. *)
Variable fault fault' : FsOp → string → string → bool.

(** X9: a second sweep of a directory that reads the same instant from the
    clock, whatever the calls of [fs] do this time, changes an entry only
    by removing it, and it removes only what the first sweep failed on: a
    regular file older than the cutoff for which [fs.readdir], [fs.stat]
    or [fs.remove] failed in the first sweep and [fs.stat] and [fs.remove]
    succeed in the second.  When the calls fail in the second sweep as
    they did in the first, every entry is after it as it was before it. *)
Theorem second_sweep_removes_only_earlier_failures (dir : string) (olderThanDays : Z)
    (s : State) :
  let s1 := (cleanupOldFiles clock fault dir olderThanDays s).2 in
  let s2 := (cleanupOldFiles clock fault' dir olderThanDays s1).2 in
  clock (ticks s1) = clock (ticks s) →
  ∀ d g,
    (lookup_entry (fs s2) d g = lookup_entry (fs s1) d g ∨ lookup_entry (fs s2) d g = None) ∧
    (lookup_entry (fs s2) d g ≠ lookup_entry (fs s1) d g →
     d = dir ∧
     (∃ n, lookup_entry (fs s) dir g = Some n ∧
           expired (clock (ticks s)) olderThanDays n = true) ∧
     (fault OpReaddir dir EmptyString = true ∨ fault OpStat dir g = true
      ∨ fault OpRemove dir g = true) ∧
     fault' OpStat dir g = false ∧ fault' OpRemove dir g = false) ∧
    ((∀ op f, fault' op dir f = fault op dir f) →
     lookup_entry (fs s2) d g = lookup_entry (fs s1) d g).
Proof.
  intros s1 s2 Hclock d g.
  destruct (cleanupOldFiles_run clock fault dir olderThanDays s) as (t1 & H1 & Hfs1).
  assert (s1 = t1) as E1 by (subst s1; by rewrite H1).
  destruct (cleanupOldFiles_run clock fault' dir olderThanDays s1) as (t2 & H2 & Hfs2).
  assert (s2 = t2) as E2 by (subst s2; by rewrite H2).
  rewrite Hclock in Hfs2. rewrite <- E1 in Hfs1. rewrite <- E2 in Hfs2.
  clearbody s1 s2. clear H1 H2 E1 E2 t1 t2 Hclock.
  rewrite Hfs2. case_decide as Hd; [subst d | by split; [left | split]].
  destruct (fault' OpReaddir dir EmptyString) eqn:Hrd'; [by split; [left | split] |].
  rewrite !Hfs1, decide_True by done.
  destruct (lookup_entry (fs s) dir g) as [n|] eqn:Hl.
  2: { destruct (fault OpReaddir dir EmptyString); by split; [left | split]. }
  assert (after_sweep fault' dir (clock (ticks s)) olderThanDays g (Some n) ≠ Some n →
          expired (clock (ticks s)) olderThanDays n = true ∧
          fault' OpStat dir g = false ∧ fault' OpRemove dir g = false) as Hrem.
  { clear. simpl. unfold swept.
    destruct (fault' OpStat dir g), (expired _ _ n), (fault' OpRemove dir g); simpl; done. }
  split; [| split].
  - destruct (fault OpReaddir dir EmptyString); simpl.
    + destruct (swept fault' _ _ _ _ n); [by right | by left].
    + destruct (swept fault _ _ _ _ n); simpl; [by left |].
      destruct (swept fault' _ _ _ _ n); [by right | by left].
  - intros Hne. split; [done |].
    destruct (fault OpReaddir dir EmptyString) eqn:Hrd.
    + destruct (Hrem Hne) as (He & Hs & Hr). eauto 10.
    + simpl in Hne. destruct (swept fault dir _ _ g n) eqn:Hsw; [done |].
      destruct (Hrem Hne) as (He & Hs & Hr).
      split; [eauto |]. split; [| done].
      unfold swept in Hsw. rewrite He in Hsw.
      destruct (fault OpStat dir g), (fault OpRemove dir g); simpl in Hsw; auto; done.
  - intros Hsame.
    assert (∀ e, after_sweep fault' dir (clock (ticks s)) olderThanDays g e
                 = after_sweep fault dir (clock (ticks s)) olderThanDays g e) as Hsw.
    { intros [m|]; [| done]. simpl. unfold swept. by rewrite !Hsame. }
    rewrite Hsw. rewrite <- Hsame, Hrd'. apply after_sweep_idem.
Qed.
End TwoSweeps.

(** ** The stored name of an upload *)

Lemma keep_safe_is_safe (s : string) : all_chars is_safe (keep_safe s) = true.
Proof.
  induction s as [|c s IH]; [done |]. simpl.
  destruct (is_safe c) eqn:E; [| done]. simpl. by rewrite E.
Qed.

Lemma keep_safe_id (s : string) : all_chars is_safe s = true → keep_safe s = s.
Proof.
  induction s as [|c s IH]; [done |]. simpl.
  intros [Hc Hs]%andb_prop. by rewrite Hc, IH.
Qed.

Lemma pretty_N_char_digit (x : N) : is_digit (pretty_N_char x) = true.
Proof. unfold pretty_N_char. by repeat case_match. Qed.

Lemma pretty_N_go_digits (x : N) (s : string) :
  all_chars is_digit s = true → all_chars is_digit (pretty_N_go x s) = true.
Proof.
  revert s. induction (N.lt_wf_0 x) as [x _ IH]; intros s Hs.
  destruct (decide (x = 0)%N) as [-> | Hx].
  - by rewrite pretty_N_go_0.
  - rewrite pretty_N_go_step by lia. apply IH.
    + apply N.div_lt; lia.
    + simpl. by rewrite pretty_N_char_digit.
Qed.

Lemma pretty_N_go_nonempty (x : N) (s : string) :
  s ≠ EmptyString → pretty_N_go x s ≠ EmptyString.
Proof.
  revert s. induction (N.lt_wf_0 x) as [x _ IH]; intros s Hs.
  destruct (decide (x = 0)%N) as [-> | Hx]; [by rewrite pretty_N_go_0 |].
  rewrite pretty_N_go_step by lia. apply IH; [apply N.div_lt; lia | done].
Qed.

(** The decimal text of a time stamp: digits, at least one. *)
Lemma pretty_N_digits (x : N) :
  all_chars is_digit (pretty x) = true ∧ pretty x ≠ EmptyString.
Proof.
  unfold pretty, pretty_N. case_decide as Hx; [done |].
  split; [by apply pretty_N_go_digits |].
  rewrite pretty_N_go_step by lia. by apply pretty_N_go_nonempty.
Qed.

Lemma digit_is_safe (c : ascii) : is_digit c = true → is_safe c = true.
Proof. unfold is_safe, is_digit. intros ->. by rewrite !orb_true_r. Qed.

Lemma safe_not_slash (c : ascii) : is_safe c = true → negb (is_slash c) = true.
Proof.
  unfold is_safe, is_slash, code_in. intros H.
  destruct (47 <=? nat_of_ascii c)%nat eqn:E1, (nat_of_ascii c <=? 47)%nat eqn:E2; try done.
  apply Nat.leb_le in E1, E2. assert (nat_of_ascii c = 47) as E by lia.
  rewrite E in H. vm_compute in H. discriminate.
Qed.

(** X11: whatever name the client sends, the stored name of an upload is
    made of letters, digits, underscores, dashes and dots only; it holds no
    slash and begins with a digit of the time stamp, so it is neither of the
    dot names and names an entry of the upload directory itself. *)
Theorem stored_name_is_safe (now : N) (originalname : option string) :
  all_chars is_safe (safe originalname) = true ∧
  all_chars is_safe (filename now originalname) = true ∧
  all_chars (λ c, negb (is_slash c)) (filename now originalname) = true ∧
  ∃ c rest, filename now originalname = String c rest ∧ is_digit c = true.
Proof.
  destruct (pretty_N_digits now) as [Hd Hne].
  assert (all_chars is_safe (filename now originalname) = true) as Hs.
  { unfold filename. rewrite !all_chars_app.
    rewrite (all_chars_impl _ _ _ digit_is_safe Hd).
    unfold safe. by rewrite keep_safe_is_safe. }
  split; [unfold safe; apply keep_safe_is_safe |].
  split; [exact Hs |].
  split; [exact (all_chars_impl _ _ _ safe_not_slash Hs) |].
  unfold filename. destruct (pretty now) as [|c r]; [done |].
  exists c. eexists. rewrite append_cons. split; [done |].
  simpl in Hd. by apply andb_prop in Hd as [-> _].
Qed.

Lemma no_slash_basename_go (comp cur s : string) :
  all_chars (λ c, negb (is_slash c)) s = true →
  basename_go comp cur s = if decide (cur +:+ s = EmptyString) then comp else cur +:+ s.
Proof.
  revert cur. induction s as [|c s IH]; intros cur H.
  - simpl. by rewrite append_nil_r.
  - simpl in *. apply andb_prop in H as [Hc Hs].
    destruct (is_slash c); [done |].
    rewrite IH by done. rewrite append_assoc. simpl.
    rewrite !decide_False; [done | |]; by destruct cur.
Qed.

Lemma basename_go_prefix (a f comp cur : string) :
  ∃ comp', basename_go comp cur (a +:+ String (ascii_of_nat 47) f)
           = basename_go comp' EmptyString f.
Proof.
  revert comp cur. induction a as [|c a IH]; intros comp cur.
  - rewrite append_nil_l. simpl. eauto.
  - rewrite append_cons. simpl. destruct (is_slash c); apply IH.
Qed.

Lemma safe_char_no_space (c : ascii) (s : string) :
  is_safe c = true → space_at (String c s) = None.
Proof.
  intros Hc. unfold space_at.
  assert (nat_of_ascii c < 128 ∧ ascii_space c = false) as [Hlt ->].
  { unfold is_safe, ascii_space, code_in in *.
    rewrite !orb_true_iff, !andb_true_iff, !Nat.leb_le in Hc.
    split; [lia |]. apply not_true_is_false.
    rewrite !orb_true_iff, !andb_true_iff, !Nat.leb_le. lia. }
  assert (list_find (λ p, starts_with p (String c s) = true) unicode_spaces = None) as ->;
    [| done].
  apply list_find_None. apply Forall_forall. intros p Hp.
  assert (Forall (λ p, match p with
                       | String b _ => (128 <=? nat_of_ascii b)%nat
                       | EmptyString => false
                       end = true) unicode_spaces) as Hall
    by (apply (bool_decide_unpack _); vm_compute; exact I).
  rewrite Forall_forall in Hall. specialize (Hall p Hp).
  destruct p as [|b r]; [done |]. apply Nat.leb_le in Hall.
  simpl. rewrite decide_False; [done | intros ->; lia].
Qed.

Lemma no_space_replace (s : string) :
  all_chars is_safe s = true → replace_spaces 0 false s = s.
Proof.
  induction s as [|c s IH]; [done |].
  simpl all_chars. intros [Hc Hs]%andb_prop.
  cbn [replace_spaces]. rewrite (safe_char_no_space c s Hc). by rewrite IH.
Qed.

(** X12: a name that is made of the allowed characters and is not empty
    is stored as it is.  Cleaning a cleaned name gives it back, except for
    the empty cleaned name (that of a name without any allowed character),
    which is cleaned to the name file. *)
Theorem safe_names_are_kept (name : string) (originalname : option string) :
  (all_chars is_safe name = true → name ≠ EmptyString → safe (Some name) = name) ∧
  safe (Some (safe originalname))
  = if decide (safe originalname = EmptyString) then "file" else safe originalname.
Proof.
  assert (∀ name, all_chars is_safe name = true → name ≠ EmptyString →
                  safe (Some name) = name) as E.
  { clear. intros name Hs Hne. unfold safe. rewrite truthy_text_Some by done.
    change (default EmptyString (Some name)) with name.
    unfold basename.
    rewrite no_slash_basename_go by exact (all_chars_impl _ _ _ safe_not_slash Hs).
    rewrite append_nil_l, decide_False by done.
    by rewrite no_space_replace, keep_safe_id. }
  split; [apply E |].
  case_decide as Hempty.
  - rewrite Hempty. vm_compute. reflexivity.
  - apply E; [| done]. unfold safe. apply keep_safe_is_safe.
Qed.

Lemma safe_names_are_kept_witness :
  safe (Some "report-2024_v1.2.js") = "report-2024_v1.2.js" ∧
  safe (Some "???") = EmptyString ∧
  safe (Some (safe (Some "???"))) = "file".
Proof.
  destruct (safe_names_are_kept "report-2024_v1.2.js" (Some "???")) as [H1 H2].
  split; [apply H1; [reflexivity | discriminate] |].
  split; [reflexivity |].
  rewrite H2. reflexivity.
Defined.

(** X13: the directories of the name the client sends are dropped: a name
    behind a slash is stored exactly as the same name sent alone. *)
Theorem directories_are_dropped (dir name : string) :
  all_chars (λ c, negb (is_slash c)) name = true → name ≠ EmptyString →
  safe (Some (dir +:+ "/" +:+ name)) = safe (Some name).
Proof.
  intros Hs Hne. unfold safe.
  rewrite !truthy_text_Some; [| done | by destruct dir].
  change (default EmptyString (Some ?x)) with x.
  assert (basename (dir +:+ "/" +:+ name) = basename name) as ->; [| done].
  unfold basename.
  destruct (basename_go_prefix dir name EmptyString EmptyString) as [comp' E].
  change ("/" +:+ name) with (String (ascii_of_nat 47) name).
  rewrite E, !no_slash_basename_go by done.
  by rewrite append_nil_l, !decide_False by done.
Qed.

Lemma directories_are_dropped_witness :
  safe (Some "../../etc/cron.d/job 1.js") = safe (Some "job 1.js").
Proof.
  apply (directories_are_dropped "../../etc/cron.d" "job 1.js"); [reflexivity | discriminate].
Defined.

(** ** The identifier generators *)

Lemma join_app (a b : list string) : join (a ++ b) = join a +:+ join b.
Proof.
  induction a as [|x a IH]; [done |]. simpl. by rewrite IH, append_assoc.
Qed.

Section Draws.
Variable draw : nat → nat → nat.
Hypothesis draw_lt : ∀ k n, 0 < n → draw k n < n.

Lemma pick_in (chars : list string) (k : nat) :
  0 < length chars → pick draw chars k ∈ chars.
Proof using draw_lt.
  intros H. unfold pick.
  destruct (lookup_lt_is_Some_2 chars (draw k (length chars)) (draw_lt k _ H)) as [c Hc].
  rewrite Hc. simpl. by apply list_elem_of_lookup_2 in Hc.
Qed.

(** The loop appends one character of the alphabet per round. *)
Lemma draw_name_chars (chars : list string) (n : nat) :
  0 < length chars → ∀ name k,
  ∃ cs, length cs = n ∧ Forall (λ c, c ∈ chars) cs ∧
        draw_name draw chars name n k = name +:+ join cs.
Proof using draw_lt.
  intros H. induction n as [|n IH]; intros name k.
  - exists []. split; [done |]. split; [constructor |]. simpl. by rewrite append_nil_r.
  - destruct (IH (name +:+ pick draw chars k) (S k)) as (cs & Hl & Hf & E).
    exists (pick draw chars k :: cs). split; [simpl; lia |].
    split; [constructor; [by apply pick_in | done] |].
    simpl. by rewrite E, append_assoc.
Qed.

(** X14: whatever [Math.random] returns, a name of the arab, japan or
    mixed generator is made of three to six characters, each taken from the
    generator's alphabet; every character of a mixed name is a character of
    the japan alphabet or of the arab alphabet. *)
Theorem alphabet_names_are_short_and_in_alphabet (k : nat) :
  (∃ cs, generateArabicName draw k = join cs ∧ 3 ≤ length cs ≤ 6 ∧
         Forall (λ c, c ∈ arabicChars) cs) ∧
  (∃ cs, generateJapaneseName draw k = join cs ∧ 3 ≤ length cs ≤ 6 ∧
         Forall (λ c, c ∈ japaneseChars) cs) ∧
  (∃ cs, generateJapaneseXArabName draw k = join cs ∧ 3 ≤ length cs ≤ 6 ∧
         Forall (λ c, c ∈ japaneseChars ∨ c ∈ arabicChars) cs).
Proof using draw_lt.
  pose proof (draw_lt k 4 ltac:(lia)) as H4.
  assert (∀ chars, 0 < length chars →
            ∃ cs, draw_name draw chars EmptyString (draw k 4 + 3) (S k) = join cs ∧
                  3 ≤ length cs ≤ 6 ∧ Forall (λ c, c ∈ chars) cs) as Hgen.
  { intros chars Hc.
    destruct (draw_name_chars chars (draw k 4 + 3) Hc EmptyString (S k)) as (cs & Hl & Hf & E).
    exists cs. split; [done |]. split; [lia | done]. }
  split; [apply Hgen; simpl; lia |].
  split; [apply Hgen; simpl; lia |].
  destruct (Hgen japaneseXArabChars ltac:(simpl; lia)) as (cs & E & Hl & Hf).
  exists cs. split; [done |]. split; [done |].
  eapply Forall_impl; [exact Hf |]. intros c Hc. simpl in Hc.
  assert (Forall (λ c, c ∈ japaneseChars ++ arabicChars) japaneseXArabChars) as Hall
    by (apply (bool_decide_unpack _); vm_compute; exact I).
  rewrite Forall_forall in Hall. by apply elem_of_app, Hall.
Qed.

(** X15: whatever [Math.random] returns, a name of the nebula generator is
    the prefix NX followed by four letters of its alphabet: six ASCII
    letters in all. *)
Theorem nebula_names_have_prefix_and_four_letters (k : nat) :
  ∃ cs, generateNebulaName draw k = "NX" +:+ join cs ∧ length cs = 4 ∧
        Forall (λ c, c ∈ nebulaChars) cs ∧
        String.length (generateNebulaName draw k) = 6 ∧
        all_chars is_letter (generateNebulaName draw k) = true.
Proof using draw_lt.
  unfold generateNebulaName.
  destruct (draw_name_chars nebulaChars 4 ltac:(simpl; lia) EmptyString k)
    as (cs & Hl & Hf & E).
  rewrite E, append_nil_l.
  exists cs. split; [done |]. split; [done |]. split; [done |].
  destruct cs as [|c1 [|c2 [|c3 [|c4 [|c5 cs]]]]]; try discriminate.
  assert (∀ c, c ∈ nebulaChars →
            match c with
            | String a EmptyString => is_letter a
            | _ => false
            end = true) as Hone.
  { apply Forall_forall. apply (bool_decide_unpack _). vm_compute. exact I. }
  repeat match goal with
         | H : Forall _ (_ :: _) |- _ => apply Forall_cons in H as [?%Hone H]
         end.
  destruct c1 as [|x1 [|]], c2 as [|x2 [|]], c3 as [|x3 [|]], c4 as [|x4 [|]]; try done.
  split; [reflexivity |].
  cbn [join]. rewrite !append_cons, !append_nil_l. cbn [all_chars].
  by repeat match goal with H : _ = true |- _ => rewrite H; clear H end.
Qed.
End Draws.

Lemma trial_draw_lt (k n : nat) : 0 < n → Trials.draw k n < n.
Proof. intros H. unfold Trials.draw. apply Nat.mod_upper_bound. lia. Qed.

Lemma alphabet_names_are_short_and_in_alphabet_witness :
  ∃ cs, generateArabicName Trials.draw 0 = join cs ∧ 3 ≤ length cs ≤ 6 ∧
        Forall (λ c, c ∈ arabicChars) cs.
Proof.
  exact (proj1 (alphabet_names_are_short_and_in_alphabet Trials.draw trial_draw_lt 0)).
Defined.

Lemma nebula_names_have_prefix_and_four_letters_witness :
  String.length (generateNebulaName Trials.draw 5) = 6.
Proof.
  destruct (nebula_names_have_prefix_and_four_letters Trials.draw trial_draw_lt 5)
    as (cs & _ & _ & _ & H & _).
  exact H.
Defined.

(** ** Preset resolution, once more *)

(** X16: every configuration that resolution returns belongs to one of
    the four compared names, whatever the case of its letters, and has the
    same core: target node, compact output, renaming of variables and
    globals, full control-flow flattening, a generator function for
    identifiers and a lock policy with anti-debug, integrity and
    self-defence; all but nova also enable tamper protection. *)
Theorem resolved_configurations_share_a_core (preset : option string) (cfg : Config) :
  selectConfig preset = Ok cfg →
  presetKey preset ∈ dispatched ∧
  cfg !! "target" = Some (VStr "node") ∧
  cfg !! "compact" = Some (VBool true) ∧
  cfg !! "renameVariables" = Some (VBool true) ∧
  cfg !! "renameGlobals" = Some (VBool true) ∧
  cfg !! "controlFlowFlattening" = Some (VNum 1) ∧
  (∃ g, cfg !! "identifierGenerator" = Some (VFun g)) ∧
  Forall (λ g, enables cfg g = true) ["selfDefending"; "antiDebug"; "integrity"] ∧
  (presetKey preset ≠ "nova" → enables cfg "tamperProtection" = true).
Proof.
  intros H. destruct (selectConfig_dispatched preset cfg H) as (Hin & _ & ->).
  split; [exact Hin |].
  unfold dispatched in Hin.
  repeat (apply elem_of_cons in Hin as [-> | Hin]);
    [| | | | by apply elem_of_nil in Hin];
    (repeat (split; [reflexivity |]));
    (split; [eexists; reflexivity |]);
    (split; [repeat constructor |]);
    first [ reflexivity | intros ?; done ].
Qed.

Lemma resolved_configurations_share_a_core_witness :
  enables getJapanObfuscationConfig "tamperProtection" = true.
Proof.
  destruct (resolved_configurations_share_a_core (Some "JAPAN") getJapanObfuscationConfig eq_refl)
    as (_ & _ & _ & _ & _ & _ & _ & _ & H).
  apply H. discriminate.
Defined.

(** ** The further properties on the concrete servers *)

Lemma engine_failure_is_reported_witness :
  job_events Scenario.clock Scenario.fault Trials.failing_engine
    (Some (Scenario.request (Some "nova"))) Scenario.idle
  = take 3 milestones ++ [Error "Unexpected token"].
Proof.
  unfold job_events.
  rewrite (engine_failure_is_reported Scenario.clock Scenario.fault Trials.failing_engine
             (Scenario.request (Some "nova")) "hello.js"
             (mkNode true (1700000000000 - 1 * Scenario.day) "console.log(1)")
             getNovaObfuscationConfig (mkError "Error" "Unexpected token") Scenario.idle).
  - reflexivity.
  - reflexivity.
  - discriminate.
  - vm_compute. reflexivity.
  - reflexivity.
  - reflexivity.
  - reflexivity.
  - reflexivity.
  - discriminate.
Defined.

Lemma job_succeeds_and_stores_result_witness :
  job_events Trials.ticking Scenario.fault Scenario.obfuscate
    (Some (Scenario.request (Some "arab"))) Scenario.idle
  = success_trace "enc_1700000000000_1700000000001.js" ∧
  (content <$> lookup_entry
     (fs (onStart Trials.ticking Scenario.fault Scenario.obfuscate
            (Some (Scenario.request (Some "arab"))) Scenario.idle).2)
     OUTPUT_DIR "enc_1700000000000_1700000000001.js")
  = Some "/*obf*/console.log(1)".
Proof.
  destruct (job_succeeds_and_stores_result Trials.ticking Scenario.fault Scenario.obfuscate
              (Scenario.request (Some "arab")) "hello.js"
              (mkNode true (1700000000000 - 1 * Scenario.day) "console.log(1)")
              getArabObfuscationConfig (JsStr "/*obf*/console.log(1)")
              "/*obf*/console.log(1)" ∅ Scenario.idle) as (H1 & H2 & _).
  - reflexivity.
  - discriminate.
  - vm_compute. reflexivity.
  - reflexivity.
  - reflexivity.
  - reflexivity.
  - reflexivity.
  - reflexivity.
  - reflexivity.
  - vm_compute. reflexivity.
  - intros n' H. rewrite lookup_empty in H. discriminate.
  - split; [exact H1 | exact H2].
Defined.

Lemma download_serves_the_artifact_witness :
  downloadRoute "enc_1700000000000_1700000000001.js" Scenario.idle
  = Send 404 "File not found" ∧
  downloadRoute "enc_1700000000000_1700000000001.js"
    (onStart Trials.ticking Scenario.fault Scenario.obfuscate
       (Some (Scenario.request (Some "japan"))) Scenario.idle).2
  = Download OUTPUT_DIR "enc_1700000000000_1700000000001.js".
Proof.
  destruct (download_serves_the_artifact Trials.ticking Scenario.fault Scenario.obfuscate
              (Scenario.request (Some "japan")) "hello.js"
              (mkNode true (1700000000000 - 1 * Scenario.day) "console.log(1)")
              getJapanObfuscationConfig (JsStr "/*obf*/console.log(1)")
              "/*obf*/console.log(1)" ∅ Scenario.idle) as (H1 & _ & H3).
  - reflexivity.
  - discriminate.
  - vm_compute. reflexivity.
  - reflexivity.
  - reflexivity.
  - reflexivity.
  - reflexivity.
  - reflexivity.
  - reflexivity.
  - vm_compute. reflexivity.
  - apply lookup_empty.
  - split; [exact H1 | exact H3].
Defined.

Lemma second_sweep_removes_only_earlier_failures_witness :
  let s1 := (cleanupOldFiles Scenario.clock Scenario.fault UPLOAD_DIR 7 Scenario.idle).2 in
  lookup_entry (fs (cleanupOldFiles Scenario.clock Scenario.fault UPLOAD_DIR 7 s1).2)
    UPLOAD_DIR "locked.log"
  = lookup_entry (fs s1) UPLOAD_DIR "locked.log" ∧
  is_Some (lookup_entry (fs s1) UPLOAD_DIR "locked.log") ∧
  lookup_entry (fs (cleanupOldFiles Scenario.clock Trials.no_fault UPLOAD_DIR 7 s1).2)
    UPLOAD_DIR "locked.log" = None.
Proof.
  intros s1. split; [| split].
  - apply (second_sweep_removes_only_earlier_failures Scenario.clock Scenario.fault
             Scenario.fault UPLOAD_DIR 7 Scenario.idle); reflexivity.
  - vm_compute. eauto.
  - destruct (second_sweep_removes_only_earlier_failures Scenario.clock Scenario.fault
                Trials.no_fault UPLOAD_DIR 7 Scenario.idle eq_refl UPLOAD_DIR "locked.log")
      as ([H | H] & _ & _); [| exact H].
    exfalso. revert H. vm_compute. discriminate.
Defined.

Lemma request_without_file_witness :
  job_events Scenario.clock Scenario.fault Scenario.obfuscate
    (Some (mkStart (Some EmptyString) (Some "nova") None true)) Scenario.idle
  = [Error "No file specified."].
Proof.
  unfold job_events.
  rewrite (request_without_file Scenario.clock Scenario.fault Scenario.obfuscate
             (Some (mkStart (Some EmptyString) (Some "nova") None true)) Scenario.idle).
  - reflexivity.
  - reflexivity.
Defined.
